(** * consul-k8s health-check operator: controller and handler

    A shallow embedding of the two Go files of the health-check operator,

    - the controller (informer event filter, work queue, worker loop), and
    - [operators/health-check/handler.go] (the [HealthCheckHandler]),

    followed by the properties of the specification settled against them.

    Go values are modelled as follows.  An [error] is a message; the [nil]
    error is [None].  A pair [(T, error)] whose value the caller ignores on
    error is a sum [error + T].  A Go [map] is a [gmap].  Code that calls
    out of the process (the Consul agent, the Kubernetes API server, the
    informer cache) runs in a state monad whose state records every request
    sent, in order; the answers come from an environment that may answer
    differently after every request. *)

From Stdlib Require Import ZArith Ascii String.
From stdpp Require Import base option list gmap strings.

Open Scope Z_scope.

(** ** Outcomes and the state monad *)

(** What running a piece of Go code can lead to.  [Panic] is a Go run-time
    panic; [Blocked] is a blocking call that does not return (reading an
    empty work queue); [OutOfFuel] is the loop bound of the model being
    reached, which the theorems below exclude. *)
Inductive Outcome (A : Type) : Type :=
| Ret (a : A)
| Panic (msg : string)
| Blocked
| OutOfFuel.
Arguments Ret {A} a.
Arguments Panic {A} msg.
Arguments Blocked {A}.
Arguments OutOfFuel {A}.

Definition M (S A : Type) : Type := S → Outcome (A * S).

Definition ret {S A} (a : A) : M S A := λ s, Ret (a, s).

Definition bind {S A B} (m : M S A) (k : A → M S B) : M S B :=
  λ s, match m s with
       | Ret (a, s') => k a s'
       | Panic msg => Panic msg
       | Blocked => Blocked
       | OutOfFuel => OutOfFuel
       end.

Definition get {S} : M S S := λ s, Ret (s, s).
Definition modify {S} (f : S → S) : M S unit := λ s, Ret (tt, f s).
Definition panic {S A} (msg : string) : M S A := λ _, Panic msg.

Declare Scope go_scope.
Delimit Scope go_scope with go.
Notation "x <- m ;; k" := (bind m (λ x, k))
  (at level 100, m at next level, right associativity) : go_scope.
Notation "m ;;; k" := (bind m (λ _, k))
  (at level 100, right associativity) : go_scope.
Open Scope go_scope.

(** [for _, x := range xs { body }] where [body] ends normally or with
    [continue]. *)
Fixpoint forRange {S A} (xs : list A) (body : A → M S unit) : M S unit :=
  match xs with
  | [] => ret tt
  | x :: rest => body x ;;; forRange rest body
  end.

(** ** Go values *)

Inductive error : Type := Errorf (msg : string).

Global Instance error_eq_dec : EqDecision error.
Proof. solve_decision. Defined.

Inductive LogLevel : Type := LDebug | LInfo | LError.

(** A log line: its level and the format string of the call. *)
Definition LogLine : Type := LogLevel * string.

Module GoStrings.

(** [strings.Split(s, sep)] for a one-byte separator, which is how the
    controller calls it: the pieces between the separators, always at
    least one.  [cur] holds the piece being read. *)
Fixpoint splitFrom (sep : ascii) (cur : string) (s : string) : list string :=
  match s with
  | EmptyString => [cur]
  | String c rest =>
      if Ascii.eqb c sep
      then cur :: splitFrom sep "" rest
      else splitFrom sep (cur +:+ String c "") rest
  end.

Definition Split (s : string) (sep : ascii) : list string := splitFrom sep "" s.

(** [strings.Join(elems, sep)]. *)
Fixpoint Join (elems : list string) (sep : string) : string :=
  match elems with
  | [] => ""
  | [x] => x
  | x :: rest => x +:+ sep +:+ Join rest sep
  end.

End GoStrings.

(** ** Kubernetes objects ([k8s.io/api/core/v1]) *)

Module corev1.

Inductive PodPhase : Type :=
| PodPending | PodRunning | PodSucceeded | PodFailed | PodUnknown.

Inductive ConditionStatus : Type :=
| ConditionTrue | ConditionFalse | ConditionUnknown.

Record PodCondition : Type := {
  Type_ : string;
  Status : ConditionStatus;
  Reason : string;
  Message : string }.

(** The fields of a [Pod] the operator reads.  [Phase], [HostIP] and
    [Conditions] are [pod.Status.Phase], [.HostIP] and [.Conditions];
    [ResourceVersion] stands for the metadata that changes on every write
    of the object and that [reflect.DeepEqual] sees. *)
Record Pod : Type := {
  Name : string;
  Namespace : string;
  Annotations : gmap string string;
  ResourceVersion : string;
  Phase : PodPhase;
  HostIP : string;
  Conditions : list PodCondition }.

Global Instance PodPhase_eq_dec : EqDecision PodPhase.
Proof. solve_decision. Defined.
Global Instance ConditionStatus_eq_dec : EqDecision ConditionStatus.
Proof. solve_decision. Defined.
Global Instance PodCondition_eq_dec : EqDecision PodCondition.
Proof. solve_decision. Defined.
Global Instance Pod_eq_dec : EqDecision Pod.
Proof. solve_decision. Defined.

End corev1.

(** ** The Consul agent API ([github.com/hashicorp/consul/api]) *)

Module api.

Record AgentService : Type := {
  ID : string;
  Service : string }.

Record AgentCheck : Type := {
  CheckID : string;
  Status : string }.

(** The embedded [AgentServiceCheck] of a registration; its [Status] and
    [Notes] are written [Check_Status] and [Check_Notes] here. *)
Record AgentServiceCheck : Type := {
  TTL : string;
  Check_Status : string;
  Check_Notes : string;
  TLSSkipVerify : bool;
  SuccessBeforePassing : Z;
  FailuresBeforeCritical : Z;
  DeregisterCriticalServiceAfter : string }.

Record AgentCheckRegistration : Type := {
  Name : string;
  Notes : string;
  ServiceID : string;
  Check : AgentServiceCheck;
  Namespace : string }.

Global Instance AgentServiceCheck_eq_dec : EqDecision AgentServiceCheck.
Proof. solve_decision. Defined.
Global Instance AgentCheckRegistration_eq_dec : EqDecision AgentCheckRegistration.
Proof. solve_decision. Defined.

End api.

(** ** Requests and the environment that answers them *)

(** A request the handler sends out of the process.  [addr] is the address
    of the agent the client is bound to. *)
Inductive Call : Type :=
| CPodsList (namespace labelSelector : string)
| CAPIClient (addr : string)
| CServices (addr : string)
| CChecksWithFilter (addr filter : string)
| CCheckRegister (addr : string) (reg : api.AgentCheckRegistration)
| CCheckDeregister (addr checkID : string)
| CFailTTL (addr checkID note : string)
| CPassTTL (addr checkID note : string).

Global Instance Call_eq_dec : EqDecision Call.
Proof. solve_decision. Defined.

(** The world outside the handler: how each request is answered, given the
    requests sent before it (oldest first).  Nothing is assumed of the
    answers, so that an agent may fail, recover, or change its registry
    between any two requests. *)
Record Env : Type := {
  PodsList : list Call → string → string → error + list corev1.Pod;
  APIClient : list Call → string → option error;
  Services : list Call → string → error + gmap string api.AgentService;
  ChecksWithFilter : list Call → string → string → error + gmap string api.AgentCheck;
  CheckRegister : list Call → string → api.AgentCheckRegistration → option error;
  CheckDeregister : list Call → string → string → option error;
  FailTTL : list Call → string → string → string → option error;
  PassTTL : list Call → string → string → string → option error }.

(** ** The handler ([handler.go]) *)

Definition healthCheckPassing : string := "passing".
Definition healthCheckCritical : string := "critical".

(** The fields of the [HealthCheckHandler] struct that the code reads or
    writes: [Client] is [nil] ([None]) or a client bound to an agent
    address; [HFlagsAddress] is the address held by [HFlags].  [calls] are
    the requests sent so far and [Log] the lines logged, oldest first. *)
Record HealthCheckHandler : Type := {
  Client : option string;
  HFlagsAddress : string;
  ConsulClientScheme : string;
  ConsulPort : string;
  calls : list Call;
  Log : list LogLine }.

Definition setClient (c : option string) (t : HealthCheckHandler) : HealthCheckHandler :=
  {| Client := c; HFlagsAddress := HFlagsAddress t;
     ConsulClientScheme := ConsulClientScheme t; ConsulPort := ConsulPort t;
     calls := calls t; Log := Log t |}.

Definition setHFlagsAddress (a : string) (t : HealthCheckHandler) : HealthCheckHandler :=
  {| Client := Client t; HFlagsAddress := a;
     ConsulClientScheme := ConsulClientScheme t; ConsulPort := ConsulPort t;
     calls := calls t; Log := Log t |}.

Definition addCall (c : Call) (t : HealthCheckHandler) : HealthCheckHandler :=
  {| Client := Client t; HFlagsAddress := HFlagsAddress t;
     ConsulClientScheme := ConsulClientScheme t; ConsulPort := ConsulPort t;
     calls := calls t ++ [c]; Log := Log t |}.

Definition addLog (l : LogLine) (t : HealthCheckHandler) : HealthCheckHandler :=
  {| Client := Client t; HFlagsAddress := HFlagsAddress t;
     ConsulClientScheme := ConsulClientScheme t; ConsulPort := ConsulPort t;
     calls := calls t; Log := Log t ++ [l] |}.

(** [t.Log.Debug/Info/Error(format, ...)]. *)
Definition logf (lvl : LogLevel) (format : string) : M HealthCheckHandler unit :=
  modify (addLog (lvl, format)).

(** Sends [c]: the environment answers from the requests sent so far, and
    [c] joins them. *)
Definition request {A} (c : Call) (answer : list Call → A) : M HealthCheckHandler A :=
  λ t, Ret (answer (calls t), addCall c t).

(** [t.Client.Agent()...]: the agent address of the client in [t.Client];
    dereferencing a [nil] client panics. *)
Definition agent : M HealthCheckHandler string :=
  λ t, match Client t with
       | Some addr => Ret (addr, t)
       | None => Panic "invalid memory address or nil pointer dereference"
       end.

(** The type assertion of [obj] to a pod pointer: it panics on a [nil]
    interface. *)
Definition assertPod {S} (obj : option corev1.Pod) : M S corev1.Pod :=
  match obj with
  | Some pod => ret pod
  | None => panic "interface conversion: interface {} is nil, not *v1.Pod"
  end.

Section Handler.

Variable E : Env.

Definition getConsulServiceID (pod : corev1.Pod) : string :=
  corev1.Name pod +:+ "-" +:+
  default "" (corev1.Annotations pod !! "consul.hashicorp.com/connect-service").

Definition getConsulHealthCheckID (pod : corev1.Pod) : string :=
  getConsulServiceID pod +:+ "-kubernetes-health-check-ttl".

Definition deregisterConsulHealthCheck (consulHealthCheckID : string)
  : M HealthCheckHandler (option error) :=
  logf LInfo "deregisterConsulHealthCheck for %v" ;;;
  addr <- agent ;;
  err <- request (CCheckDeregister addr consulHealthCheckID)
           (λ h, CheckDeregister E h addr consulHealthCheckID) ;;
  match err with
  | Some e => logf LError "Unable to deregister failing ttl health check, %v" ;;; ret (Some e)
  | None => ret None
  end.

(** The address [updateConsulClient] builds with
    [fmt.Sprintf("%v://%v:%v", httpfmt, pod.Status.HostIP, t.ConsulPort)]. *)
Definition newAddr (consulPort : string) (pod : corev1.Pod) : string :=
  let httpfmt := "http" in
  let httpfmt := if String.eqb consulPort "8501" then "https" else httpfmt in
  httpfmt +:+ "://" +:+ corev1.HostIP pod +:+ ":" +:+ consulPort.

Definition updateConsulClient (pod : corev1.Pod) : M HealthCheckHandler (option error) :=
  t <- get ;;
  let newAddr := newAddr (ConsulPort t) pod in
  modify (setHFlagsAddress newAddr) ;;;
  err <- request (CAPIClient newAddr) (λ h, APIClient E h newAddr) ;;
  match err with
  | Some e =>
      logf LError "unable to get Consul API Client for address %s: %s" ;;;
      modify (setClient None)
  | None => modify (setClient (Some newAddr))
  end ;;;
  logf LInfo "setting consul client to the following agent: %v" ;;;
  ret err.

(** [backoff.Retry(operation, b)] of [github.com/cenkalti/backoff] with the
    constant back-off the handler passes, which never asks to stop: the
    operation is called again, after a pause, until it returns [nil].  The
    pause is not modelled; [fuel] bounds the attempts of the model. *)
Fixpoint Retry {S} (fuel : nat) (operation : M S (option error)) : M S (option error) :=
  match fuel with
  | O => λ _, OutOfFuel
  | Datatypes.S fuel' =>
      err <- operation ;;
      match err with
      | None => ret None
      | Some _ => Retry fuel' operation
      end
  end.

(** The variables of [registerConsulHealthCheck] that its closure captures. *)
Record registerLocals : Type := {
  retries : Z;
  err : option error }.

(** Runs [m], which may write the captured variables [l], inside a function
    whose state is [S]. *)
Definition withLocals {L S A} (l : L) (m : M (L * S) A) : M S (A * L) :=
  λ s, match m (l, s) with
       | Ret (a, (l', s')) => Ret ((a, l'), s')
       | Panic msg => Panic msg
       | Blocked => Blocked
       | OutOfFuel => OutOfFuel
       end.

Definition local {L S A} (m : M S A) : M (L * S) A :=
  λ ls, match m ls.2 with
        | Ret (a, s') => Ret (a, (ls.1, s'))
        | Panic msg => Panic msg
        | Blocked => Blocked
        | OutOfFuel => OutOfFuel
        end.

Definition didNotFind (serviceID : string) : error :=
  Errorf ("did not find serviceID: " +:+ serviceID).

(** The closure passed to [backoff.Retry]. *)
Definition operation (serviceID : string) : M (registerLocals * HealthCheckHandler) (option error) :=
  ls <- get ;;
  if 10 <? retries ls.1 then
    modify (λ ls, ({| retries := retries ls.1; err := Some (didNotFind serviceID) |}, ls.2)) ;;;
    ret None
  else
    modify (λ ls, ({| retries := retries ls.1 + 1; err := err ls.1 |}, ls.2)) ;;;
    addr <- local agent ;;
    r <- local (request (CServices addr) (λ h, Services E h addr)) ;;
    match r with
    | inr svc =>
        if existsb (λ y, String.eqb (api.Service y) serviceID) (map_to_list svc).*2
        then ret None
        else ret (Some (didNotFind serviceID))
    | inl e => ret (Some e)
    end.

(** Attempts granted to [Retry] in [registerConsulHealthCheck]; the closure
    returns [nil] at its twelfth call at the latest
    ([Retry_operation_enough]). *)
Definition retryFuel : nat := 12.

Definition registration (consulHealthCheckID serviceID initialStatus reason : string)
  : api.AgentCheckRegistration :=
  {| api.Name := consulHealthCheckID;
     api.Notes := "Kubernetes Health Check " +:+ reason;
     api.ServiceID := serviceID;
     api.Check :=
       {| api.TTL := "100000h";
          api.Check_Status := initialStatus;
          api.Check_Notes := reason;
          api.TLSSkipVerify := true;
          api.SuccessBeforePassing := 1;
          api.FailuresBeforeCritical := 1;
          api.DeregisterCriticalServiceAfter := "" |};
     api.Namespace := "" |}.

Definition registerConsulHealthCheck
    (consulHealthCheckID serviceID initialStatus reason : string)
  : M HealthCheckHandler (option error) :=
  logf LError "registerPassingHealthCheck, %v %v" ;;;
  let retries := 0 in
  let err := None in
  r <- withLocals {| retries := retries; err := err |}
         (Retry retryFuel (operation serviceID)) ;;
  (* [err = backoff.Retry(...)]: what [Retry] returns is stored in [err]
     after the closure has run, over what the closure stored there. *)
  let err := r.1 in
  match err with
  | Some e => ret (Some e)
  | None =>
      addr <- agent ;;
      let reg := registration consulHealthCheckID serviceID initialStatus reason in
      err <- request (CCheckRegister addr reg) (λ h, CheckRegister E h addr reg) ;;
      match err with
      | Some e =>
          logf LError "unable to register health check with Consul from k8s: %v" ;;;
          ret (Some e)
      | None => ret None
      end
  end.

Definition setConsulHealthCheckStatus (healthCheckID reason : string) (fail : bool)
  : M HealthCheckHandler (option error) :=
  if fail then
    addr <- agent ;;
    request (CFailTTL addr healthCheckID reason) (λ h, FailTTL E h addr healthCheckID reason)
  else
    addr <- agent ;;
    request (CPassTTL addr healthCheckID reason) (λ h, PassTTL E h addr healthCheckID reason).

Definition getReadyStatusAndReason (pod : corev1.Pod)
  : error + (corev1.ConditionStatus * string) :=
  match List.find (λ y, String.eqb (corev1.Type_ y) "Ready") (corev1.Conditions pod) with
  | Some y => inr (corev1.Status y, corev1.Reason y)
  | None => inl (Errorf ("unable to get pod ready status and reason for " +:+ corev1.Name pod))
  end.

Definition labelSelector : string := "abcd.com/consul-connect-inject-health-checks".

(** [metav1.NamespaceAll]. *)
Definition NamespaceAll : string := "".

(** The body of the loop of [Reconcile]; every [continue] ends it. *)
Definition Reconcile_body (pod : corev1.Pod) : M HealthCheckHandler unit :=
  logf LInfo "processing Pod %v" ;;;
  if bool_decide (corev1.Phase pod ≠ corev1.PodRunning) then
    logf LInfo "pod %v is not running"
  else
  (* 1. Fetch the health checks for this agent *)
  err <- updateConsulClient pod ;;
  if bool_decide (err ≠ None) then
    logf LError "unable to set client connection for %v"
  else
  let serviceID := getConsulServiceID pod in
  let healthCheckID := getConsulHealthCheckID pod in
  (* 2. Fetch the health checks on this agent related to this healthCheckID *)
  let filter := "Name == `" +:+ healthCheckID +:+ "`" in
  addr <- agent ;;
  r <- request (CChecksWithFilter addr filter) (λ h, ChecksWithFilter E h addr filter) ;;
  match r with
  | inl _ => logf LError "unable to get agent health checks for serviceid %v"
  | inr checks =>
  if bool_decide (size checks = 0%nat) then
    logf LError "======== we really shouldn't be here!, %v"
  else
  match getReadyStatusAndReason pod with
  | inl _ => logf LError "%v"
  | inr (status, reason) =>
  let initialStatus := healthCheckPassing in
  match checks !! healthCheckID with
  | None =>
      (* 3. If the check doesnt exist yet, create it! *)
      let '(initialStatus, reason) :=
        if bool_decide (status = corev1.ConditionFalse)
        then (healthCheckCritical, reason)
        else (initialStatus, "") in
      logf LInfo "registering new health check for %v" ;;;
      err <- registerConsulHealthCheck healthCheckID serviceID initialStatus reason ;;
      if bool_decide (err ≠ None) then logf LError "unable to register health check %v"
      else ret tt
  | Some check =>
      (* 3. check does exist, update it if necessary *)
      let checkStatus := api.Status check in
      let fail := true in
      let '(fail, reason) :=
        if String.eqb checkStatus healthCheckCritical
           && bool_decide (status = corev1.ConditionTrue)
        then (false, "")
        else (fail, reason) in
      if (String.eqb checkStatus healthCheckPassing
          && bool_decide (status = corev1.ConditionFalse)) || negb fail then
        logf LInfo "updating pod check for %v" ;;;
        err <- setConsulHealthCheckStatus healthCheckID reason fail ;;
        if bool_decide (err ≠ None) then
          logf LError "unable to update health check status for %v"
        else logf LInfo "no update required for %V"
      else logf LInfo "no update required for %V"
  end end end.

Definition Reconcile : M HealthCheckHandler (option error) :=
  r <- request (CPodsList NamespaceAll labelSelector)
         (λ h, PodsList E h NamespaceAll labelSelector) ;;
  match r with
  | inl e => logf LError "unable to get pods failing handler" ;;; ret (Some e)
  | inr podList => forRange podList Reconcile_body ;;; ret None
  end.

(** [Init] runs the reconciliation. *)
Definition Init : M HealthCheckHandler (option error) := Reconcile.

Definition ObjectCreated (obj : option corev1.Pod) : M HealthCheckHandler (option error) :=
  pod <- assertPod obj ;;
  let consulHealthCheckID := getConsulHealthCheckID pod in
  err <- updateConsulClient pod ;;
  match err with
  | Some e => logf LError "unable to update Consul client: %v" ;;; ret (Some e)
  | None =>
      err <- registerConsulHealthCheck consulHealthCheckID (getConsulServiceID pod)
               healthCheckPassing "" ;;
      match err with
      | Some e => logf LError "unable to register health check: %v" ;;; ret (Some e)
      | None => logf LInfo "HealthCheckHandler.ObjectCreated %v" ;;; ret err
      end
  end.

Definition ObjectDeleted (obj : option corev1.Pod) : M HealthCheckHandler (option error) :=
  pod <- assertPod obj ;;
  let consulHealthCheckID := getConsulHealthCheckID pod in
  logf LDebug "HealthCheckHandler.ObjectDeleted %v" ;;;
  err <- updateConsulClient pod ;;
  match err with
  | Some e => logf LError "unable to update Consul client: %v" ;;; ret (Some e)
  | None =>
      err <- deregisterConsulHealthCheck consulHealthCheckID ;;
      (if bool_decide (err ≠ None)
       then logf LError "unable to deregister health check: %v"
       else ret tt) ;;;
      ret None
  end.

(** The loop of [ObjectUpdated] over [pod.Status.Conditions]; both branches
    that find the [Ready] condition [break].  [err] is the variable of the
    enclosing function, which the loop overwrites. *)
Fixpoint ObjectUpdated_loop (consulHealthCheckID : string)
    (conditions : list corev1.PodCondition) (err : option error)
  : M HealthCheckHandler (option error) :=
  match conditions with
  | [] => ret err
  | y :: rest =>
      if String.eqb (corev1.Type_ y) "Ready"
         && bool_decide (corev1.Status y ≠ corev1.ConditionTrue) then
        (* Set the status of the TTL health check to failed! *)
        err <- setConsulHealthCheckStatus consulHealthCheckID (corev1.Message y) true ;;
        (if bool_decide (err ≠ None)
         then logf LError "unable to update health check to fail: %v"
         else ret tt) ;;;
        ret err
      else if String.eqb (corev1.Type_ y) "Ready"
              && bool_decide (corev1.Status y = corev1.ConditionTrue) then
        (* Set the Consul TTL to passing for this Pod *)
        err <- setConsulHealthCheckStatus consulHealthCheckID (corev1.Message y) false ;;
        (if bool_decide (err ≠ None)
         then logf LError "unable to update health check to pass: %v"
         else ret tt) ;;;
        ret err
      else ObjectUpdated_loop consulHealthCheckID rest err
  end.

Definition ObjectUpdated (objNew : option corev1.Pod) : M HealthCheckHandler (option error) :=
  pod <- assertPod objNew ;;
  logf LDebug "HealthCheckHandler.ObjectUpdated, %v %v" ;;;
  err <- updateConsulClient pod ;;
  match err with
  | Some e => logf LError "unable to update Consul client: %v" ;;; ret (Some e)
  | None =>
      (* This is the health check ID that we will update *)
      let consulHealthCheckID := getConsulHealthCheckID pod in
      err <- ObjectUpdated_loop consulHealthCheckID (corev1.Conditions pod) err ;;
      modify (setClient None) ;;;
      (if bool_decide (err = None)
       then logf LDebug "HealthCheckHandler.ObjectUpdated, %v %v"
       else ret tt) ;;;
      ret err
  end.

End Handler.

(** The [Handler] interface of [handler.go], over a handler whose state has
    type [T].  An [interface{}] argument is [None] when it is [nil]. *)
Class Handler (T : Type) : Type := {
  handlerInit : M T (option error);
  handlerObjectCreated : option corev1.Pod → M T (option error);
  handlerObjectDeleted : option corev1.Pod → M T (option error);
  handlerObjectUpdated : option corev1.Pod → M T (option error);
  handlerReconcile : M T (option error) }.

Global Instance HealthCheckHandler_Handler (E : Env) : Handler HealthCheckHandler := {|
  handlerInit := Init E;
  handlerObjectCreated := ObjectCreated E;
  handlerObjectDeleted := ObjectDeleted E;
  handlerObjectUpdated := ObjectUpdated E;
  handlerReconcile := Reconcile E |}.

(** ** The work queue ([k8s.io/client-go/util/workqueue]) *)

Module workqueue.

(** A rate-limiting queue as client-go implements it: [queue] holds the
    items to hand out, in order; [dirty] the items that need processing;
    [processing] the items handed out by [Get] and not yet [Done];
    [failures] the requeue count the rate limiter keeps per item; [waiting]
    the items of [AddRateLimited] whose delay has not elapsed. *)
Record RateLimitingQueue : Type := {
  queue : list string;
  dirty : gset string;
  processing : gset string;
  failures : gmap string nat;
  waiting : list string;
  shuttingDown : bool }.

Definition Add (item : string) (q : RateLimitingQueue) : RateLimitingQueue :=
  if shuttingDown q then q
  else if bool_decide (item ∈ dirty q) then q
  else
    {| queue := if bool_decide (item ∈ processing q) then queue q else queue q ++ [item];
       dirty := {[item]} ∪ dirty q;
       processing := processing q;
       failures := failures q;
       waiting := waiting q;
       shuttingDown := shuttingDown q |}.

(** [Get] blocks ([None]) while the queue is empty and not shutting down. *)
Definition Get (q : RateLimitingQueue) : option ((string * bool) * RateLimitingQueue) :=
  match queue q with
  | [] => if shuttingDown q then Some (("", true), q) else None
  | item :: rest =>
      Some ((item, false),
            {| queue := rest;
               dirty := dirty q ∖ {[item]};
               processing := {[item]} ∪ processing q;
               failures := failures q;
               waiting := waiting q;
               shuttingDown := shuttingDown q |})
  end.

Definition Done (item : string) (q : RateLimitingQueue) : RateLimitingQueue :=
  {| queue := if bool_decide (item ∈ dirty q) then queue q ++ [item] else queue q;
     dirty := dirty q;
     processing := processing q ∖ {[item]};
     failures := failures q;
     waiting := waiting q;
     shuttingDown := shuttingDown q |}.

Definition NumRequeues (item : string) (q : RateLimitingQueue) : Z :=
  Z.of_nat (default 0%nat (failures q !! item)).

Definition Forget (item : string) (q : RateLimitingQueue) : RateLimitingQueue :=
  {| queue := queue q;
     dirty := dirty q;
     processing := processing q;
     failures := delete item (failures q);
     waiting := waiting q;
     shuttingDown := shuttingDown q |}.

(** [AddRateLimited]: the limiter counts one more requeue of the item, and
    the item is added once its (positive) delay has elapsed. *)
Definition AddRateLimited (item : string) (q : RateLimitingQueue) : RateLimitingQueue :=
  {| queue := queue q;
     dirty := dirty q;
     processing := processing q;
     failures := <[item := Datatypes.S (default 0%nat (failures q !! item))]> (failures q);
     waiting := if shuttingDown q then waiting q else waiting q ++ [item];
     shuttingDown := shuttingDown q |}.

(** The delay of the waiting item [item] elapses: the delaying queue adds
    the item. *)
Definition Elapse (item : string) (q : RateLimitingQueue) : RateLimitingQueue :=
  if bool_decide (item ∈ waiting q) then
    Add item
      {| queue := queue q;
         dirty := dirty q;
         processing := processing q;
         failures := failures q;
         waiting := list_difference (waiting q) [item];
         shuttingDown := shuttingDown q |}
  else q.

End workqueue.

(** ** The informer cache ([k8s.io/client-go/tools/cache]) *)

(** [GetByKey] of the informer's indexer: the item, whether it exists, and
    an error. *)
Record Indexer : Type := {
  GetByKey : string → option corev1.Pod * bool * option error }.

(** [cache.MetaNamespaceKeyFunc] on a pod: [namespace/name], or [name] when
    the namespace is empty.  It fails only on objects without metadata,
    which a pod is not. *)
Definition MetaNamespaceKeyFunc (obj : corev1.Pod) : error + string :=
  if bool_decide (corev1.Namespace obj = "")
  then inr (corev1.Name obj)
  else inr (corev1.Namespace obj +:+ "/" +:+ corev1.Name obj).

(** ** The controller *)

(** What the controller does to its queue, its handler and the error
    reporter ([utilruntime.HandleError]), in order. *)
Inductive Event : Type :=
| EGet (item : string) (shutdown : bool)
| EAdd (item : string)
| EAddRateLimited (item : string)
| EForget (item : string)
| EDone (item : string)
| EHandleError (e : error)
| EObjectCreated (obj : option corev1.Pod)
| EObjectUpdated (obj : option corev1.Pod).

Global Instance Event_eq_dec : EqDecision Event.
Proof. solve_decision. Defined.

(** The [Controller] struct: its queue, the indexer of its informer, its
    handler (whose state has type [T]) and [MaxRetries].  [CtrlLog] are the
    lines logged through [c.Log] and [events] what the controller did,
    oldest first. *)
Record Controller (T : Type) : Type := {
  CtrlLog : list LogLine;
  Queue : workqueue.RateLimitingQueue;
  Informer : Indexer;
  Handle : T;
  MaxRetries : Z;
  events : list Event }.
Arguments CtrlLog {T} c.
Arguments Queue {T} c.
Arguments Informer {T} c.
Arguments Handle {T} c.
Arguments MaxRetries {T} c.
Arguments events {T} c.

Section Controller.

Context {T : Type} `{Handler T}.

Definition setQueue (q : workqueue.RateLimitingQueue) (c : Controller T) : Controller T :=
  {| CtrlLog := CtrlLog c; Queue := q; Informer := Informer c; Handle := Handle c;
     MaxRetries := MaxRetries c; events := events c |}.

Definition setHandle (h : T) (c : Controller T) : Controller T :=
  {| CtrlLog := CtrlLog c; Queue := Queue c; Informer := Informer c; Handle := h;
     MaxRetries := MaxRetries c; events := events c |}.

Definition addEvent (e : Event) (c : Controller T) : Controller T :=
  {| CtrlLog := CtrlLog c; Queue := Queue c; Informer := Informer c; Handle := Handle c;
     MaxRetries := MaxRetries c; events := events c ++ [e] |}.

Definition addCtrlLog (l : LogLine) (c : Controller T) : Controller T :=
  {| CtrlLog := CtrlLog c ++ [l]; Queue := Queue c; Informer := Informer c;
     Handle := Handle c; MaxRetries := MaxRetries c; events := events c |}.

(** [c.Log.Debug/Info/Error(format, ...)]. *)
Definition clogf (lvl : LogLevel) (format : string) : M (Controller T) unit :=
  modify (addCtrlLog (lvl, format)).

Definition Queue_Add (item : string) : M (Controller T) unit :=
  modify (λ c, addEvent (EAdd item) (setQueue (workqueue.Add item (Queue c)) c)).

Definition Queue_Get : M (Controller T) (string * bool) :=
  λ c, match workqueue.Get (Queue c) with
       | None => Blocked
       | Some ((item, quit), q) => Ret ((item, quit), addEvent (EGet item quit) (setQueue q c))
       end.

Definition Queue_NumRequeues (item : string) : M (Controller T) Z :=
  λ c, Ret (workqueue.NumRequeues item (Queue c), c).

Definition Queue_AddRateLimited (item : string) : M (Controller T) unit :=
  modify (λ c, addEvent (EAddRateLimited item)
                 (setQueue (workqueue.AddRateLimited item (Queue c)) c)).

Definition Queue_Forget (item : string) : M (Controller T) unit :=
  modify (λ c, addEvent (EForget item) (setQueue (workqueue.Forget item (Queue c)) c)).

Definition Queue_Done (item : string) : M (Controller T) unit :=
  modify (λ c, addEvent (EDone item) (setQueue (workqueue.Done item (Queue c)) c)).

(** [utilruntime.HandleError(err)]: the error goes to the error reporter. *)
Definition HandleError (e : error) : M (Controller T) unit :=
  modify (addEvent (EHandleError e)).

(** Runs a method of [c.Handle]. *)
Definition handle {A} (m : M T A) : M (Controller T) A :=
  λ c, match m (Handle c) with
       | Ret (a, h) => Ret (a, setHandle h c)
       | Panic msg => Panic msg
       | Blocked => Blocked
       | OutOfFuel => OutOfFuel
       end.

Definition Handle_ObjectCreated (obj : option corev1.Pod) : M (Controller T) (option error) :=
  modify (addEvent (EObjectCreated obj)) ;;; handle (handlerObjectCreated obj).

Definition Handle_ObjectUpdated (obj : option corev1.Pod) : M (Controller T) (option error) :=
  modify (addEvent (EObjectUpdated obj)) ;;; handle (handlerObjectUpdated obj).

(** The status the loops of [UpdateFunc] leave in [oldPodStatus] and
    [newPodStatus]: that of the last condition of type [Ready], and
    [ConditionTrue] when there is none. *)
Definition podStatus (pod : corev1.Pod) : corev1.ConditionStatus :=
  fold_left
    (λ status y, if String.eqb (corev1.Type_ y) "Ready" then corev1.Status y else status)
    (corev1.Conditions pod) corev1.ConditionTrue.

(** The [AddFunc] and [DeleteFunc] of [addEventHandlers]. *)
Definition AddFunc (obj : corev1.Pod) : M (Controller T) unit := ret tt.
Definition DeleteFunc (obj : corev1.Pod) : M (Controller T) unit := ret tt.

(** The [UpdateFunc] of [addEventHandlers].  The informer passes pods, so
    the two type assertions succeed; [reflect.DeepEqual] on the two pods is
    their equality. *)
Definition UpdateFunc (oldObj newObj : corev1.Pod) : M (Controller T) unit :=
  let newPod := newObj in
  let oldPod := oldObj in
  if bool_decide (oldObj = newObj) then
    clogf LInfo "pod was not updated "
  else
    clogf LInfo "pod was updated : " ;;;
    if bool_decide (corev1.Phase oldPod = corev1.PodPending)
       && bool_decide (corev1.Phase newPod = corev1.PodRunning) then
      (* This is the ObjectCreate path *)
      let r := MetaNamespaceKeyFunc newObj in
      clogf LInfo "Add Pod: %s" ;;;
      match r with
      | inr key => Queue_Add ("ADD/" +:+ key)
      | inl _ => ret tt
      end
    else if bool_decide (corev1.Phase newPod = corev1.PodRunning) then
      let oldPodStatus := podStatus oldPod in
      let newPodStatus := podStatus newPod in
      if bool_decide (oldPodStatus ≠ newPodStatus) then
        let r := MetaNamespaceKeyFunc newObj in
        clogf LInfo "Update pod: %s" ;;;
        match r with
        | inr key => Queue_Add ("UPDATE/" +:+ key)
        | inl _ => ret tt
        end
      else ret tt
    else ret tt.

(** The first block of [processNextItem] after the lookup: what is done
    with an error of [GetByKey]. *)
Definition lookupFailed (key : string) (err : option error) : M (Controller T) unit :=
  match err with
  | Some e =>
      n <- Queue_NumRequeues key ;;
      c <- get ;;
      if n <? MaxRetries c then
        clogf LInfo "controller.processNextItem: Failed processing item with key %s with error %v, retrying" ;;;
        Queue_AddRateLimited key
      else
        clogf LError "controller.processNextItem: Failed processing item with key %s with error %v, no more retries" ;;;
        Queue_Forget key ;;;
        HandleError e
  | None => ret tt
  end.

(** The calls of the handler in the [if exists] block. *)
Definition dispatch (create : bool) (item : option corev1.Pod) : M (Controller T) (option error) :=
  if create then
    (* This is a Pod Create *)
    clogf LInfo "controller.processNextItem: object create detected: %s" ;;;
    err <- Handle_ObjectCreated item ;;
    match err with
    | None =>
        clogf LInfo "controller.processNextItem: object update as part of ObjectCreate: %s" ;;;
        Handle_ObjectUpdated item
    | Some e => ret (Some e)
    end
  else
    (* This is a Pod Status Update *)
    clogf LInfo "controller.processNextItem: object update detected: %s" ;;;
    Handle_ObjectUpdated item.

Definition processNextItem : M (Controller T) bool :=
  clogf LDebug "Controller.processNextItem: start" ;;;
  kq <- Queue_Get ;;
  let key := kq.1 in
  let quit := kq.2 in
  if quit then ret false
  else
  let create := true in
  match GoStrings.Split key "/" with
  | [] => panic "index out of range [0] with length 0"
  | formattedKey0 :: formattedKey1 =>
  let create := if bool_decide (formattedKey0 ≠ "ADD") then false else create in
  let keyRaw := GoStrings.Join formattedKey1 "/" in
  c <- get ;;
  let '(item, exists_, err) := GetByKey (Informer c) keyRaw in
  lookupFailed key err ;;;
  err <- (if exists_ then
            err <- dispatch create item ;;
            match err with
            | None =>
                (* Indicates success *)
                Queue_Forget key
            | Some _ =>
                n <- Queue_NumRequeues key ;;
                c <- get ;;
                if n <? MaxRetries c then
                  clogf LError "unable to process request, retrying" ;;;
                  Queue_AddRateLimited key
                else ret tt
            end ;;;
            ret err
          else ret err) ;;
  (if bool_decide (err = None) then
     (* marking Done removes the key from the queue entirely *)
     Queue_Done key
   else ret tt) ;;;
  (* keep the worker loop running by returning true *)
  ret true
  end.

(** [runWorker]: [processNextItem] is called until it returns [false]; [fuel]
    bounds the rounds of the model. *)
Fixpoint runWorker_loop (fuel : nat) : M (Controller T) unit :=
  match fuel with
  | O => λ _, OutOfFuel
  | Datatypes.S fuel' =>
      continue <- processNextItem ;;
      if continue then
        clogf LDebug "Controller.runWorker: processing next item" ;;;
        runWorker_loop fuel'
      else ret tt
  end.

Definition runWorker (fuel : nat) : M (Controller T) unit :=
  clogf LDebug "Controller.runWorker: starting" ;;;
  runWorker_loop fuel ;;;
  clogf LDebug "Controller.runWorker: completed".

End Controller.

(** ** Observations on the requests and events of a run *)

(** The status-setting requests: [FailTTL] and [PassTTL]. *)
Definition isStatusCall (c : Call) : bool :=
  match c with
  | CFailTTL _ _ _ | CPassTTL _ _ _ => true
  | _ => false
  end.

Definition statusCalls (cs : list Call) : list Call := List.filter isStatusCall cs.

(** The requests that change the registry of an agent. *)
Definition isMutation (c : Call) : bool :=
  match c with
  | CCheckRegister _ _ | CCheckDeregister _ _ | CFailTTL _ _ _ | CPassTTL _ _ _ => true
  | _ => false
  end.

Definition mutations (cs : list Call) : list Call := List.filter isMutation cs.

Definition isRegistration (c : Call) : bool :=
  match c with
  | CCheckRegister _ _ => true
  | _ => false
  end.

Definition registrations (cs : list Call) : list Call := List.filter isRegistration cs.

(** How often [Done(key)] was called. *)
Definition doneCalls (key : string) (evs : list Event) : nat :=
  length (List.filter (λ e, bool_decide (e = EDone key)) evs).

(** The calls of the handler. *)
Definition isDispatch (e : Event) : bool :=
  match e with
  | EObjectCreated _ | EObjectUpdated _ => true
  | _ => false
  end.

Definition dispatches (evs : list Event) : list Event := List.filter isDispatch evs.

(** The errors passed to the error reporter. *)
Definition reported (evs : list Event) : list error :=
  omap (λ e, match e with EHandleError err => Some err | _ => None end) evs.

(** The keys passed to [Queue.Forget]. *)
Definition forgotten (evs : list Event) : list string :=
  omap (λ e, match e with EForget item => Some item | _ => None end) evs.

(** What a run of the handler returned and the requests it had sent by
    then, when it returned. *)
Definition callsOf {A} (o : Outcome (A * HealthCheckHandler)) : option (A * list Call) :=
  match o with
  | Ret (a, t) => Some (a, calls t)
  | _ => None
  end.

(** What a step of the controller returned and its events by then. *)
Definition eventsOf {A T} (o : Outcome (A * Controller T)) : option (A * list Event) :=
  match o with
  | Ret (a, c) => Some (a, events c)
  | _ => None
  end.

(** ** Notions the properties are stated with *)

(** A condition of type [Ready]. *)
Definition readyCondition (y : corev1.PodCondition) : bool :=
  String.eqb (corev1.Type_ y) "Ready".

(** The readiness boolean of the specification, read off the status the
    event filter computes: whether that status is [True] (it is when the
    [Ready] condition is absent). *)
Definition specReady (pod : corev1.Pod) : bool :=
  bool_decide (podStatus pod = corev1.ConditionTrue).

(** The filter [Reconcile] queries the checks of an agent with. *)
Definition checksFilter (pod : corev1.Pod) : string :=
  "Name == `" +:+ getConsulHealthCheckID pod +:+ "`".

(** The three failures of [Reconcile] on one instance, when the sweep
    reaches it in state [t]: no client for its agent; the agent does not
    answer the query for its checks; it has no [Ready] condition. *)
Definition bindingFails (E : Env) (t : HealthCheckHandler) (pod : corev1.Pod) : Prop :=
  is_Some (APIClient E (calls t) (newAddr (ConsulPort t) pod)).

Definition queryFails (E : Env) (t : HealthCheckHandler) (pod : corev1.Pod) : Prop :=
  let addr := newAddr (ConsulPort t) pod in
  APIClient E (calls t) addr = None ∧
  ∃ e, ChecksWithFilter E (calls t ++ [CAPIClient addr]) addr (checksFilter pod) = inl e.

Definition readinessMissing (pod : corev1.Pod) : Prop :=
  List.find readyCondition (corev1.Conditions pod) = None.

Definition instanceFails (E : Env) (t : HealthCheckHandler) (pod : corev1.Pod) : Prop :=
  bindingFails E t pod ∨ queryFails E t pod ∨ readinessMissing pod.

(** The key [processNextItem] looks up, and whether it takes the create
    path, for the queue key [key]. *)
Definition keyRaw (key : string) : string :=
  GoStrings.Join (tail (GoStrings.Split key "/")) "/".

Definition keyCreate (key : string) : bool :=
  bool_decide (head (GoStrings.Split key "/") = Some "ADD").

(** The events and the queue the first block of [processNextItem] leaves,
    for the error [e0] of the lookup. *)
Definition lookupEvents (key : string) (q : workqueue.RateLimitingQueue) (maxRetries : Z)
    (e0 : option error) : list Event :=
  match e0 with
  | Some e =>
      if workqueue.NumRequeues key q <? maxRetries
      then [EAddRateLimited key] else [EForget key; EHandleError e]
  | None => []
  end.

Definition lookupQueue (key : string) (q : workqueue.RateLimitingQueue) (maxRetries : Z)
    (e0 : option error) : workqueue.RateLimitingQueue :=
  match e0 with
  | Some e =>
      if workqueue.NumRequeues key q <? maxRetries
      then workqueue.AddRateLimited key q else workqueue.Forget key q
  | None => q
  end.

(** What [dispatch] asks of the handler. *)
Definition handlerDispatch {T} `{Handler T} (create : bool) (item : option corev1.Pod)
  : M T (option error) :=
  if create then
    err <- handlerObjectCreated item ;;
    match err with
    | None => handlerObjectUpdated item
    | Some e => ret (Some e)
    end
  else handlerObjectUpdated item.

(** ** Example instances, agents and controllers *)

Definition ready (status : corev1.ConditionStatus) (reason message : string)
  : corev1.PodCondition :=
  {| corev1.Type_ := "Ready"; corev1.Status := status;
     corev1.Reason := reason; corev1.Message := message |}.

(** The pod [default/web] of the connect service [web] on host [10.0.0.1]. *)
Definition webPod (resourceVersion : string) (phase : corev1.PodPhase)
    (conditions : list corev1.PodCondition) : corev1.Pod :=
  {| corev1.Name := "web";
     corev1.Namespace := "default";
     corev1.Annotations := {[ "consul.hashicorp.com/connect-service" := "web" ]};
     corev1.ResourceVersion := resourceVersion;
     corev1.Phase := phase;
     corev1.HostIP := "10.0.0.1";
     corev1.Conditions := conditions |}.

Definition webPending : corev1.Pod := webPod "1" corev1.PodPending [].
Definition webReady : corev1.Pod :=
  webPod "2" corev1.PodRunning [ready corev1.ConditionTrue "" ""].
Definition webReadyNoted : corev1.Pod :=
  webPod "2" corev1.PodRunning [ready corev1.ConditionTrue "" "all containers ready"].
Definition webNotReady : corev1.Pod :=
  webPod "3" corev1.PodRunning
    [ready corev1.ConditionFalse "ContainersNotReady" "containers with unready status: [web]"].
Definition webUnknown : corev1.Pod :=
  webPod "4" corev1.PodRunning [ready corev1.ConditionUnknown "NodeLost" "node is unreachable"].
Definition webBare : corev1.Pod := webPod "2" corev1.PodRunning [].

(** An agent that answers every request, and has no service and no check
    registered. *)
Definition emptyAgent : Env :=
  {| PodsList := λ _ _ _, inr [webReady];
     APIClient := λ _ _, None;
     Services := λ _ _, inr ∅;
     ChecksWithFilter := λ _ _ _, inr ∅;
     CheckRegister := λ _ _ _, None;
     CheckDeregister := λ _ _ _, None;
     FailTTL := λ _ _ _ _, None;
     PassTTL := λ _ _ _ _, None |}.

(** An agent on which the service [web-web] is visible from the third poll
    of its services on. *)
Definition lateService : Env :=
  {| PodsList := λ _ _ _, inr [webReady];
     APIClient := λ _ _, None;
     Services := λ h addr,
       if (length (List.filter (λ c, bool_decide (c = CServices addr)) h) <? 2)%nat
       then inr ∅
       else inr {[ "web-web" := {| api.ID := "web-web"; api.Service := "web-web" |} ]};
     ChecksWithFilter := λ _ _ _, inr ∅;
     CheckRegister := λ _ _ _, None;
     CheckDeregister := λ _ _ _, None;
     FailTTL := λ _ _ _ _, None;
     PassTTL := λ _ _ _ _, None |}.

Definition connectionRefused : error := Errorf "connection refused".

(** An agent that cannot be reached: every request to it fails. *)
Definition unreachableAgent : Env :=
  {| PodsList := λ _ _ _, inr [webReady];
     APIClient := λ _ _, None;
     Services := λ _ _, inl connectionRefused;
     ChecksWithFilter := λ _ _ _, inl connectionRefused;
     CheckRegister := λ _ _ _, Some connectionRefused;
     CheckDeregister := λ _ _ _, Some connectionRefused;
     FailTTL := λ _ _ _ _, Some connectionRefused;
     PassTTL := λ _ _ _ _, Some connectionRefused |}.

(** A world where no client can be built. *)
Definition noClient : Env :=
  {| PodsList := λ _ _ _, inr [webReady];
     APIClient := λ _ _, Some (Errorf "invalid client configuration");
     Services := λ _ _, inr ∅;
     ChecksWithFilter := λ _ _ _, inr ∅;
     CheckRegister := λ _ _ _, None;
     CheckDeregister := λ _ _ _, None;
     FailTTL := λ _ _ _ _, None;
     PassTTL := λ _ _ _ _, None |}.

(** A handler that has done nothing yet, for agents on port [8500]. *)
Definition handler0 : HealthCheckHandler :=
  {| Client := None; HFlagsAddress := ""; ConsulClientScheme := "http";
     ConsulPort := "8500"; calls := []; Log := [] |}.

Definition webAgent : string := "http://10.0.0.1:8500".

Definition queue0 : workqueue.RateLimitingQueue :=
  {| workqueue.queue := []; workqueue.dirty := ∅; workqueue.processing := ∅;
     workqueue.failures := ∅; workqueue.waiting := []; workqueue.shuttingDown := false |}.

(** The indexer of client-go's store over the cached [items]: a lookup
    never fails. *)
Definition storeIndexer (items : gmap string corev1.Pod) : Indexer :=
  {| GetByKey := λ key, (items !! key, bool_decide (is_Some (items !! key)), None) |}.

(** A controller that has just started, with [key] in its queue and [pod]
    cached as [default/web]. *)
Definition controllerWith (maxRetries : Z) (key : string) (pod : corev1.Pod)
  : Controller HealthCheckHandler :=
  {| CtrlLog := [];
     Queue := workqueue.Add key queue0;
     Informer := storeIndexer {[ "default/web" := pod ]};
     Handle := handler0;
     MaxRetries := maxRetries;
     events := [] |}.

(** A controller that has just started, with an empty queue. *)
Definition idleController : Controller HealthCheckHandler :=
  {| CtrlLog := [];
     Queue := queue0;
     Informer := storeIndexer ∅;
     Handle := handler0;
     MaxRetries := 5;
     events := [] |}.

(** [processNextItem] of a controller whose handler is the
    [HealthCheckHandler] in the world [E]. *)
Definition processNextItemIn (E : Env) : M (Controller HealthCheckHandler) bool :=
  @processNextItem HealthCheckHandler (HealthCheckHandler_Handler E).

(** The queue [Get] leaves. *)
Definition afterGet (q : workqueue.RateLimitingQueue) : workqueue.RateLimitingQueue :=
  match workqueue.Get q with
  | Some (_, q') => q'
  | None => q
  end.

(** ** Further notions *)

Definition isDeregistration (c : Call) : bool :=
  match c with
  | CCheckDeregister _ _ => true
  | _ => false
  end.

Definition deregistrations (cs : list Call) : list Call := List.filter isDeregistration cs.

(** The requests the body of the loop of [Reconcile] sends for [pod] from
    the state [t], when the registration, if any, is sent after [k] polls
    of the services. *)
Definition reconcileCalls (E : Env) (t : HealthCheckHandler) (pod : corev1.Pod) (k : nat)
  : list Call :=
  let addr := newAddr (ConsulPort t) pod in
  let id := getConsulHealthCheckID pod in
  if bool_decide (corev1.Phase pod ≠ corev1.PodRunning) then []
  else
    match APIClient E (calls t) addr with
    | Some _ => [CAPIClient addr]
    | None =>
        [CAPIClient addr; CChecksWithFilter addr (checksFilter pod)] ++
        match ChecksWithFilter E (calls t ++ [CAPIClient addr]) addr (checksFilter pod) with
        | inl _ => []
        | inr checks =>
            if bool_decide (size checks = 0%nat) then []
            else
              match List.find readyCondition (corev1.Conditions pod) with
              | None => []
              | Some y =>
                  match checks !! id with
                  | None =>
                      replicate k (CServices addr) ++
                      [CCheckRegister addr
                         (if bool_decide (corev1.Status y = corev1.ConditionFalse)
                          then registration id (getConsulServiceID pod) healthCheckCritical
                                 (corev1.Reason y)
                          else registration id (getConsulServiceID pod) healthCheckPassing "")]
                  | Some check =>
                      if String.eqb (api.Status check) healthCheckCritical
                         && bool_decide (corev1.Status y = corev1.ConditionTrue)
                      then [CPassTTL addr id ""]
                      else if String.eqb (api.Status check) healthCheckPassing
                              && bool_decide (corev1.Status y = corev1.ConditionFalse)
                      then [CFailTTL addr id (corev1.Reason y)]
                      else []
                  end
              end
        end
    end.

(** The calls of the handler [dispatch] records, from the handler state [h]:
    on the create path [ObjectUpdated] is called only after an
    [ObjectCreated] that returned [nil]. *)
Definition dispatchEvents {T} `{Handler T} (create : bool) (item : option corev1.Pod) (h : T)
  : list Event :=
  if create then
    EObjectCreated item ::
    match handlerObjectCreated item h with
    | Ret (None, _) => [EObjectUpdated item]
    | _ => []
    end
  else [EObjectUpdated item].

(** The state a run of the handler leaves, when it returns. *)
Definition stateAfter {A} (o : Outcome (A * HealthCheckHandler)) : HealthCheckHandler :=
  match o with
  | Ret (_, t) => t
  | _ => handler0
  end.

(** A handler whose client is bound to the agent of [default/web]. *)
Definition boundHandler : HealthCheckHandler := setClient (Some webAgent) handler0.

(** An agent on which the service [web-web] is registered. *)
Definition seenService : Env :=
  {| PodsList := λ _ _ _, inr [webReady];
     APIClient := λ _ _, None;
     Services := λ _ _,
       inr {[ "web-web" := {| api.ID := "web-web"; api.Service := "web-web" |} ]};
     ChecksWithFilter := λ _ _ _, inr ∅;
     CheckRegister := λ _ _ _, None;
     CheckDeregister := λ _ _ _, None;
     FailTTL := λ _ _ _ _, None;
     PassTTL := λ _ _ _ _, None |}.

(** An agent that holds the check of [default/web], with status critical. *)
Definition criticalCheckAgent : Env :=
  {| PodsList := λ _ _ _, inr [webReady];
     APIClient := λ _ _, None;
     Services := λ _ _, inr ∅;
     ChecksWithFilter := λ _ _ _,
       inr {[ "web-web-kubernetes-health-check-ttl" :=
                {| api.CheckID := "web-web-kubernetes-health-check-ttl";
                   api.Status := healthCheckCritical |} ]};
     CheckRegister := λ _ _ _, None;
     CheckDeregister := λ _ _ _, None;
     FailTTL := λ _ _ _ _, None;
     PassTTL := λ _ _ _ _, None |}.

(** An agent that answers the query for the checks with a check of another
    id. *)
Definition foreignCheckAgent : Env :=
  {| PodsList := λ _ _ _, inr [webNotReady];
     APIClient := λ _ _, None;
     Services := λ _ _, inr ∅;
     ChecksWithFilter := λ _ _ _,
       inr {[ "web-check" := {| api.CheckID := "web-check"; api.Status := healthCheckPassing |} ]};
     CheckRegister := λ _ _ _, None;
     CheckDeregister := λ _ _ _, None;
     FailTTL := λ _ _ _ _, None;
     PassTTL := λ _ _ _ _, None |}.

(** The same agent, in a world whose listing holds the instance
    [default/web] with a [Ready] condition of status [Unknown]. *)
Definition unknownReadiness : Env :=
  {| PodsList := λ _ _ _, inr [webUnknown];
     APIClient := λ _ _, None;
     Services := λ _ _, inr ∅;
     ChecksWithFilter := λ _ _ _,
       inr {[ "web-check" := {| api.CheckID := "web-check"; api.Status := healthCheckPassing |} ]};
     CheckRegister := λ _ _ _, None;
     CheckDeregister := λ _ _ _, None;
     FailTTL := λ _ _ _ _, None;
     PassTTL := λ _ _ _ _, None |}.

(** A controller whose queue is empty and shut down. *)
Definition stoppedController : Controller HealthCheckHandler :=
  {| CtrlLog := [];
     Queue := {| workqueue.queue := []; workqueue.dirty := ∅; workqueue.processing := ∅;
                 workqueue.failures := ∅; workqueue.waiting := [];
                 workqueue.shuttingDown := true |};
     Informer := storeIndexer ∅;
     Handle := handler0;
     MaxRetries := 5;
     events := [] |}.

(** A controller with [key] in its queue and a cache whose lookups fail. *)
Definition failingLookupController (maxRetries : Z) (key : string)
  : Controller HealthCheckHandler :=
  {| CtrlLog := [];
     Queue := workqueue.Add key queue0;
     Informer := {| GetByKey := λ _, (None, false, Some connectionRefused) |};
     Handle := handler0;
     MaxRetries := maxRetries;
     events := [] |}.

(** [runWorker] of a controller whose handler is the [HealthCheckHandler] in
    the world [E]. *)
Definition runWorkerIn (E : Env) (fuel : nat) : M (Controller HealthCheckHandler) unit :=
  @runWorker HealthCheckHandler (HealthCheckHandler_Handler E) fuel.

(** * Properties *)

(** ** Proof automation *)

Create HintDb go discriminated.
Hint Unfold bind ret modify get panic logf request agent local withLocals : go.
Hint Unfold addLog addCall setClient setHFlagsAddress : go.
Hint Unfold clogf Queue_Add Queue_Get Queue_NumRequeues Queue_AddRateLimited Queue_Forget
  Queue_Done HandleError handle Handle_ObjectCreated Handle_ObjectUpdated
  setQueue setHandle addEvent addCtrlLog : go.

Arguments Retry : simpl never.
Arguments dispatch : simpl never.

(** Unfolds the monad and the field updates, and computes. *)
Ltac go_unfold := autounfold with go; simpl.

(** Reduces the fields of an updated controller. *)
Ltac ctrl_simpl :=
  unfold addEvent, setQueue, setHandle, addCtrlLog;
  cbn [CtrlLog Queue Informer Handle MaxRetries events fst snd].
Tactic Notation "ctrl_simpl" "in" hyp(H) :=
  unfold addEvent, setQueue, setHandle, addCtrlLog in H;
  cbn [CtrlLog Queue Informer Handle MaxRetries events fst snd] in H.

Lemma bind_Ret {S A B} (m : M S A) (k : A → M S B) s a s' :
  m s = Ret (a, s') → bind m k s = k a s'.
Proof. unfold bind. by intros ->. Qed.

(** ** [strings.Split] *)

Lemma splitFrom_nonempty sep s : ∀ cur, GoStrings.splitFrom sep cur s ≠ [].
Proof.
  induction s as [|c s IH]; intros cur; simpl; [done|].
  destruct (Ascii.eqb c sep); [done | apply IH].
Qed.

(** [Split] returns at least one piece, so that [formattedKey[0]] never
    panics. *)
Lemma Split_nonempty s sep : GoStrings.Split s sep ≠ [].
Proof. apply splitFrom_nonempty. Qed.

Example Split_key : GoStrings.Split "ADD/default/web" "/" = ["ADD"; "default"; "web"].
Proof. reflexivity. Qed.

Example Split_empty : GoStrings.Split "" "/" = [""].
Proof. reflexivity. Qed.

Example keyRaw_key : keyRaw "UPDATE/default/web" = "default/web".
Proof. reflexivity. Qed.

(** ** Identifiers and the agent address *)

Lemma updateConsulClient_eq E pod t :
  updateConsulClient E pod t =
  let a := newAddr (ConsulPort t) pod in
  let err := APIClient E (calls t) a in
  Ret (err,
       {| Client := match err with Some _ => None | None => Some a end;
          HFlagsAddress := a;
          ConsulClientScheme := ConsulClientScheme t;
          ConsulPort := ConsulPort t;
          calls := calls t ++ [CAPIClient a];
          Log := match err with
                 | Some _ =>
                     Log t ++ [(LError, "unable to get Consul API Client for address %s: %s")]
                       ++ [(LInfo, "setting consul client to the following agent: %v")]
                 | None =>
                     Log t ++ [(LInfo, "setting consul client to the following agent: %v")]
                 end |}).
Proof.
  unfold updateConsulClient. go_unfold.
  destruct (APIClient E (calls t) _); simpl; rewrite <- ?app_assoc; reflexivity.
Qed.

(** C9.  The health check id of an instance is its service id followed by
    [-kubernetes-health-check-ttl]; its service id is its name, [-], and the
    value of its connect-service annotation (empty when it has none); and
    the agent address [updateConsulClient] sets and builds its client for
    is [scheme://hostIP:port], where the scheme is [https] exactly when the
    configured port is [8501], and [http] otherwise. *)
Theorem identifiers_and_agent_address (E : Env) (t : HealthCheckHandler) (pod : corev1.Pod) :
  getConsulHealthCheckID pod = getConsulServiceID pod +:+ "-kubernetes-health-check-ttl" ∧
  getConsulServiceID pod =
    corev1.Name pod +:+ "-" +:+
    default "" (corev1.Annotations pod !! "consul.hashicorp.com/connect-service") ∧
  ∃ scheme err t',
    (scheme = "https" ↔ ConsulPort t = "8501") ∧
    (scheme = "http" ↔ ConsulPort t ≠ "8501") ∧
    let addr := scheme +:+ "://" +:+ corev1.HostIP pod +:+ ":" +:+ ConsulPort t in
    updateConsulClient E pod t = Ret (err, t') ∧
    HFlagsAddress t' = addr ∧
    calls t' = calls t ++ [CAPIClient addr] ∧
    Client t' = match err with None => Some addr | Some _ => None end.
Proof.
  split; [reflexivity|]. split; [reflexivity|].
  rewrite updateConsulClient_eq. unfold newAddr.
  destruct (String.eqb_spec (ConsulPort t) "8501") as [Hport|Hport].
  - exists "https". eexists _, _. split; [done|]. split; [by split|].
    cbv zeta. split; [reflexivity|]. simpl.
    destruct (APIClient E _ _); done.
  - exists "http". eexists _, _. split; [by split|]. split; [done|].
    cbv zeta. split; [reflexivity|]. simpl.
    destruct (APIClient E _ _); done.
Qed.

Example address_plain : newAddr "8500" webReady = "http://10.0.0.1:8500".
Proof. reflexivity. Qed.

Example address_tls : newAddr "8501" webReady = "https://10.0.0.1:8501".
Proof. reflexivity. Qed.

Example check_id_web : getConsulHealthCheckID webReady = "web-web-kubernetes-health-check-ttl".
Proof. reflexivity. Qed.

(** ** Registration *)

Lemma Retry_S {S} (fuel : nat) (op : M S (option error)) :
  Retry (Datatypes.S fuel) op =
  (err <- op ;; match err with None => ret None | Some _ => Retry fuel op end).
Proof. reflexivity. Qed.

(** More attempts do not change what [Retry] returns. *)
Lemma Retry_more_fuel {S} (op : M S (option error)) (fuel : nat) : ∀ s r (fuel' : nat),
  Retry fuel op s = Ret r → (fuel ≤ fuel')%nat → Retry fuel' op s = Ret r.
Proof.
  induction fuel as [|fuel IH]; intros s r fuel' Hr Hle; [discriminate Hr|].
  destruct fuel' as [|fuel']; [lia|].
  rewrite Retry_S in *. unfold bind in *.
  destruct (op s) as [[[e|] s']| | |]; try done.
  apply IH; [done | lia].
Qed.

(** Past ten polls the closure stores its error in the captured [err] and
    returns [nil]. *)
Lemma operation_exhausted E sid l t :
  10 < retries l →
  operation E sid (l, t) =
  Ret (None, ({| retries := retries l; err := Some (didNotFind sid) |}, t)).
Proof.
  intros Hl. unfold operation. go_unfold.
  destruct (Z.ltb_spec 10 (retries l)); [reflexivity | lia].
Qed.

(** Up to ten polls done, the closure polls the services of the agent. *)
Lemma operation_poll E sid l t addr :
  retries l ≤ 10 → Client t = Some addr →
  operation E sid (l, t) =
  Ret (match Services E (calls t) addr with
       | inr svc => if existsb (λ y, String.eqb (api.Service y) sid) (map_to_list svc).*2
                    then None else Some (didNotFind sid)
       | inl e => Some e
       end,
       ({| retries := retries l + 1; err := err l |}, addCall (CServices addr) t)).
Proof.
  intros Hl Hc. unfold operation. go_unfold.
  destruct (Z.ltb_spec 10 (retries l)); [lia |].
  simpl. rewrite Hc. simpl.
  destruct (Services E (calls t) addr) as [e|svc]; [by rewrite Hc|].
  destruct (existsb _ _); by rewrite Hc.
Qed.

(** [Retry] on the closure returns, and returns [nil], whatever the agent
    answers: with [retries = 11 - n], after at most [n] polls, given more
    than [n] attempts. *)
Lemma Retry_operation_enough E sid (n : nat) : ∀ (fuel : nat) l t addr,
  Client t = Some addr →
  retries l = 11 - Z.of_nat n →
  (n < fuel)%nat →
  ∃ k l' t',
    Retry fuel (operation E sid) (l, t) = Ret (None, (l', t')) ∧
    (k ≤ n)%nat ∧
    t' = Nat.iter k (addCall (CServices addr)) t.
Proof.
  induction n as [|n IH]; intros fuel l t addr Hc Hl Hfuel;
    (destruct fuel as [|fuel]; [lia|]); rewrite Retry_S; unfold bind at 1.
  - rewrite operation_exhausted by lia. exists 0%nat. eauto.
  - rewrite (operation_poll _ _ _ _ addr) by (done || lia).
    destruct (Services E (calls t) addr) as [e|svc].
    + destruct (IH fuel {| retries := retries l + 1; err := err l |}
                  (addCall (CServices addr) t) addr) as (k & l' & t' & Hr & Hk & Ht);
        [done | simpl; lia | lia |].
      exists (Datatypes.S k), l', t'. rewrite Hr. split; [done|]. split; [lia|].
      rewrite Ht. apply Nat.iter_swap.
    + destruct (existsb _ _).
      * exists 1%nat. eexists _, _. split; [reflexivity|]. split; [lia | reflexivity].
      * destruct (IH fuel {| retries := retries l + 1; err := err l |}
                  (addCall (CServices addr) t) addr) as (k & l' & t' & Hr & Hk & Ht);
          [done | simpl; lia | lia |].
        exists (Datatypes.S k), l', t'. rewrite Hr. split; [done|]. split; [lia|].
        rewrite Ht. apply Nat.iter_swap.
Qed.

Lemma calls_iter_addCall c k t :
  calls (Nat.iter k (addCall c) t) = calls t ++ replicate k c.
Proof.
  induction k as [|k IH]; simpl.
  - by rewrite app_nil_r.
  - rewrite IH, <- app_assoc. f_equal. clear. induction k; simpl; congruence.
Qed.

Lemma Client_iter_addCall c k t : Client (Nat.iter k (addCall c) t) = Client t.
Proof. induction k; simpl; congruence. Qed.

(** With a client bound, [registerConsulHealthCheck] always returns, after
    at most eleven polls of the services, and always sends the
    registration: what it returns is the answer to the registration. *)
Lemma registerConsulHealthCheck_registers E id sid st reason t addr :
  Client t = Some addr →
  ∃ k t1,
    (k ≤ 11)%nat ∧
    let reg := registration id sid st reason in
    let h := calls t ++ replicate k (CServices addr) in
    registerConsulHealthCheck E id sid st reason t = Ret (CheckRegister E h addr reg, t1) ∧
    calls t1 = h ++ [CCheckRegister addr reg] ∧
    Client t1 = Some addr ∧ ConsulPort t1 = ConsulPort t.
Proof.
  intros Hc.
  destruct (Retry_operation_enough E sid 11 retryFuel {| retries := 0; err := None |}
              (addLog (LError, "registerPassingHealthCheck, %v %v") t) addr)
    as (k & l' & t' & Hr & Hk & Ht); [done | done | unfold retryFuel; lia |].
  assert (Client t' = Some addr) as Hc' by (by rewrite Ht, Client_iter_addCall).
  assert (calls t' = calls t ++ replicate k (CServices addr)) as Hcalls
    by (by rewrite Ht, calls_iter_addCall).
  assert (ConsulPort t' = ConsulPort t) as Hport
    by (rewrite Ht; clear; induction k; simpl; auto).
  exists k.
  unfold registerConsulHealthCheck. go_unfold. unfold addLog in Hr. rewrite Hr. simpl.
  rewrite Hc'. simpl. rewrite Hcalls.
  destruct (CheckRegister E _ addr _); eexists; (split; [done|]);
    (split; [reflexivity|]); simpl; rewrite ?Hcalls; auto.
Qed.

(** C1.  The service [web-web] never appears among the services of the
    agent, which answers every request.  [ObjectCreated] polls the services
    eleven times, then registers the check all the same, and returns
    [nil]. *)
Theorem ObjectCreated_registers_for_unseen_service :
  callsOf (ObjectCreated emptyAgent (Some webReady) handler0) =
  Some (None,
        [CAPIClient webAgent] ++ replicate 11 (CServices webAgent) ++
        [CCheckRegister webAgent
           (registration "web-web-kubernetes-health-check-ttl" "web-web"
              healthCheckPassing "")]).
Proof. vm_compute. reflexivity. Qed.

(** The service shows at the third poll: the check is registered then. *)
Example ObjectCreated_after_late_service :
  callsOf (ObjectCreated lateService (Some webReady) handler0) =
  Some (None,
        [CAPIClient webAgent] ++ replicate 3 (CServices webAgent) ++
        [CCheckRegister webAgent
           (registration "web-web-kubernetes-health-check-ttl" "web-web"
              healthCheckPassing "")]).
Proof. vm_compute. reflexivity. Qed.

(** ** Update *)

(** The loop of [ObjectUpdated] sends at most one request, decided by the
    first [Ready] condition. *)
Lemma ObjectUpdated_loop_calls E id conds : ∀ err0 t addr,
  Client t = Some addr →
  ∃ r t',
    ObjectUpdated_loop E id conds err0 t = Ret (r, t') ∧
    calls t' = calls t ++
      match List.find readyCondition conds with
      | None => []
      | Some y =>
          if bool_decide (corev1.Status y = corev1.ConditionTrue)
          then [CPassTTL addr id (corev1.Message y)]
          else [CFailTTL addr id (corev1.Message y)]
      end.
Proof.
  induction conds as [|y rest IH]; intros err0 t addr Hc; simpl.
  - eexists _, _. split; [reflexivity|]. by rewrite app_nil_r.
  - unfold readyCondition at 1.
    destruct (String.eqb (corev1.Type_ y) "Ready") eqn:Hty; simpl; [|by apply IH].
    destruct (corev1.Status y) eqn:Hst; simpl;
      unfold setConsulHealthCheckStatus; go_unfold; rewrite Hc; simpl.
    + destruct (PassTTL E _ _ _ _); simpl; eexists _, _; split; reflexivity.
    + destruct (FailTTL E _ _ _ _); simpl; eexists _, _; split; reflexivity.
    + destruct (FailTTL E _ _ _ _); simpl; eexists _, _; split; reflexivity.
Qed.

(** C5, as amended.  [ObjectUpdated] on an instance always returns, and
    sends at most one status-setting request.  When no client can be built
    for the agent of the instance it sends none, and what it returns is the
    error of the binding.  Otherwise it sends none when the instance has no
    condition of type [Ready], and else exactly one, decided by the first
    condition of type [Ready]: [FailTTL] with the message of the condition
    as the reason when its status is not [True], and [PassTTL] when it
    is. *)
Theorem ObjectUpdated_status_calls (E : Env) (t : HealthCheckHandler) (pod : corev1.Pod) :
  let addr := newAddr (ConsulPort t) pod in
  let id := getConsulHealthCheckID pod in
  ∃ note r t' new,
    ObjectUpdated E (Some pod) t = Ret (r, t') ∧
    calls t' = calls t ++ new ∧
    match APIClient E (calls t) addr with
    | Some e => r = Some e ∧ statusCalls new = []
    | None =>
        statusCalls new =
          match List.find (λ y, String.eqb (corev1.Type_ y) "Ready") (corev1.Conditions pod) with
          | None => []
          | Some y =>
              if bool_decide (corev1.Status y = corev1.ConditionTrue)
              then [CPassTTL addr id note]
              else [CFailTTL addr id (corev1.Message y)]
          end
    end.
Proof.
  intros addr id. fold readyCondition.
  exists (match List.find readyCondition (corev1.Conditions pod) with
          | Some y => corev1.Message y
          | None => ""
          end).
  unfold ObjectUpdated, assertPod.
  unfold bind at 1. unfold ret at 1. unfold bind at 1. unfold logf at 1, modify at 1.
  unfold bind at 1. rewrite updateConsulClient_eq. cbv zeta.
  simpl calls. simpl ConsulPort. fold addr.
  destruct (APIClient E (calls t) addr) as [e|] eqn:Hapi.
  - go_unfold. eexists _, _, [_]. split; [reflexivity|]. split; [reflexivity|].
    split; reflexivity.
  - match goal with |- context [bind (ObjectUpdated_loop E ?i ?c ?e) _ ?s] =>
      destruct (ObjectUpdated_loop_calls E i c e s addr) as (r & t' & Hloop & Hcalls);
        [reflexivity|]; rewrite (bind_Ret _ _ _ _ _ Hloop)
    end.
    fold id in Hcalls. simpl in Hcalls. go_unfold.
    exists r. destruct r; simpl; eexists _, _; (split; [reflexivity|]); simpl;
      rewrite Hcalls, <- app_assoc; (split; [reflexivity|]); simpl;
      destruct (List.find readyCondition (corev1.Conditions pod)) as [y|]; try reflexivity;
      destruct (bool_decide _); reflexivity.
Qed.

(** The reason [ObjectUpdated] passes with [PassTTL] is the message of the
    condition, as it is with [FailTTL]. *)
Lemma ObjectUpdated_loop_passes_message E id y rest err0 t addr :
  Client t = Some addr →
  readyCondition y = true →
  corev1.Status y = corev1.ConditionTrue →
  ∃ r t',
    ObjectUpdated_loop E id (y :: rest) err0 t = Ret (r, t') ∧
    calls t' = calls t ++ [CPassTTL addr id (corev1.Message y)].
Proof.
  intros Hc Hy Hst.
  destruct (ObjectUpdated_loop_calls E id (y :: rest) err0 t addr Hc) as (r & t' & Hl & Hcalls).
  exists r, t'. split; [done|].
  simpl in Hcalls. by rewrite Hy, Hst in Hcalls.
Qed.

(** C5, as stated, fails: updating an instance that has no [Ready]
    condition sends no status-setting request at all, and updating a ready
    instance sends [PassTTL] with the message of the condition, not with an
    empty reason. *)
Lemma ObjectUpdated_not_one_cleared_call :
  callsOf (ObjectUpdated emptyAgent (Some webBare) handler0) =
    Some (None, [CAPIClient webAgent]) ∧
  callsOf (ObjectUpdated emptyAgent (Some webReadyNoted) handler0) =
    Some (None,
          [CAPIClient webAgent;
           CPassTTL webAgent "web-web-kubernetes-health-check-ttl" "all containers ready"]).
Proof. split; vm_compute; reflexivity. Qed.

(** No client for the agent: [ObjectUpdated] returns the error and sends
    no status-setting request. *)
Example ObjectUpdated_without_client :
  callsOf (ObjectUpdated noClient (Some webNotReady) handler0) =
  Some (Some (Errorf "invalid client configuration"), [CAPIClient webAgent]).
Proof. vm_compute. reflexivity. Qed.

Example ObjectUpdated_not_ready :
  callsOf (ObjectUpdated emptyAgent (Some webNotReady) handler0) =
  Some (None,
        [CAPIClient webAgent;
         CFailTTL webAgent "web-web-kubernetes-health-check-ttl"
           "containers with unready status: [web]"]).
Proof. vm_compute. reflexivity. Qed.

(** ** Reconciliation *)

Lemma mutations_app cs1 cs2 : mutations (cs1 ++ cs2) = mutations cs1 ++ mutations cs2.
Proof. apply List.filter_app. Qed.

Lemma setConsulHealthCheckStatus_returns E id reason fail t addr :
  Client t = Some addr →
  ∃ r t', setConsulHealthCheckStatus E id reason fail t = Ret (r, t').
Proof.
  intros Hc. unfold setConsulHealthCheckStatus.
  destruct fail; go_unfold; rewrite Hc; eauto.
Qed.

(** The body of the loop always ends normally. *)
Lemma Reconcile_body_returns E pod t : ∃ t', Reconcile_body E pod t = Ret ((), t').
Proof.
  unfold Reconcile_body. unfold bind at 1. unfold logf at 1, modify at 1.
  case_bool_decide; [go_unfold; eauto|].
  unfold bind at 1. rewrite updateConsulClient_eq. cbv zeta.
  destruct (APIClient E _ _) as [e|] eqn:Hapi.
  { rewrite bool_decide_eq_true_2 by done. go_unfold; eauto. }
  rewrite bool_decide_eq_false_2 by (intros ?; done).
  go_unfold.
  destruct (ChecksWithFilter E _ _ _) as [e|checks]; [eauto|].
  case_bool_decide; [eauto|].
  destruct (getReadyStatusAndReason pod) as [e|[status reason]]; [eauto|].
  destruct (checks !! getConsulHealthCheckID pod) as [check|].
  - match goal with |- context [if ?b then (false, _) else _] => destruct b end;
      match goal with |- context [if ?b then _ else _] => destruct b end; eauto;
      match goal with |- context [setConsulHealthCheckStatus E ?i ?r ?f ?s] =>
        destruct (setConsulHealthCheckStatus_returns E i r f s (newAddr (ConsulPort t) pod))
          as (r' & t' & ->); [reflexivity|] end;
      case_bool_decide; eauto.
  - match goal with |- context [if ?b then _ else _] => destruct b end;
      match goal with |- context [registerConsulHealthCheck E ?i ?sv ?st ?r ?s] =>
        destruct (registerConsulHealthCheck_registers E i sv st r s (newAddr (ConsulPort t) pod))
          as (k & t' & _ & -> & _); [reflexivity|] end;
      case_bool_decide; eauto.
Qed.

Lemma forRange_returns E pods : ∀ t, ∃ t', forRange pods (Reconcile_body E) t = Ret ((), t').
Proof.
  induction pods as [|pod rest IH]; intros t; simpl.
  - by eexists.
  - destruct (Reconcile_body_returns E pod t) as (t1 & Hbody).
    rewrite (bind_Ret _ _ _ _ _ Hbody). apply IH.
Qed.

(** [Reconcile] always returns, and returns the error of the listing, if
    any, and [nil] otherwise. *)
Lemma Reconcile_returns E t :
  ∃ r t', Reconcile E t = Ret (r, t') ∧
    r = match PodsList E (calls t) NamespaceAll labelSelector with
        | inl e => Some e
        | inr _ => None
        end.
Proof.
  unfold Reconcile. unfold bind at 1. unfold request at 1.
  destruct (PodsList E (calls t) NamespaceAll labelSelector) as [e|podList].
  - go_unfold. eauto.
  - unfold bind at 1.
    match goal with |- context [forRange podList _ ?s] =>
      destruct (forRange_returns E podList s) as (t' & ->) end.
    go_unfold. eauto.
Qed.

(** An instance that fails is passed over: nothing is registered or set on
    any agent for it. *)
Lemma Reconcile_body_skips E pod t :
  instanceFails E t pod →
  ∃ t', Reconcile_body E pod t = Ret ((), t') ∧ mutations (calls t') = mutations (calls t).
Proof.
  intros Hfail.
  unfold Reconcile_body. unfold bind at 1. unfold logf at 1, modify at 1.
  case_bool_decide; [go_unfold; eauto|].
  unfold bind at 1. rewrite updateConsulClient_eq. cbv zeta.
  simpl calls. simpl ConsulPort.
  destruct (APIClient E _ _) as [e|] eqn:Hapi.
  { rewrite bool_decide_eq_true_2 by done. go_unfold. eexists. split; [reflexivity|].
    simpl. rewrite mutations_app. simpl. by rewrite app_nil_r. }
  rewrite bool_decide_eq_false_2 by (intros ?; done).
  go_unfold. fold (checksFilter pod).
  destruct (ChecksWithFilter E _ _ _) as [e|checks] eqn:Hq.
  { eexists. split; [reflexivity|]. simpl. rewrite !mutations_app. simpl.
    by rewrite !app_nil_r. }
  case_bool_decide.
  { eexists. split; [reflexivity|]. simpl. rewrite !mutations_app. simpl.
    by rewrite !app_nil_r. }
  destruct Hfail as [[e He]|[(_ & e & He)|Hmiss]].
  - congruence.
  - congruence.
  - unfold getReadyStatusAndReason. fold readyCondition. rewrite Hmiss.
    eexists. split; [reflexivity|]. simpl. rewrite !mutations_app. simpl.
    by rewrite !app_nil_r.
Qed.

(** C8, as amended.  In a sweep of [Reconcile], an instance for which no
    client can be built, whose agent does not answer the query for its checks, or which
    has no [Ready] condition is passed over: the body of the loop ends
    normally without registering or setting anything, and the sweep goes on
    with the next instance.  [Reconcile] always returns, and returns a
    non-[nil] error only when the listing of the instances fails (the error
    of the listing). *)
Theorem Reconcile_instance_failure_is_not_fatal
    (E : Env) (t : HealthCheckHandler) (pod : corev1.Pod) (rest : list corev1.Pod) :
  instanceFails E t pod →
  (∃ t', Reconcile_body E pod t = Ret ((), t') ∧
         mutations (calls t') = mutations (calls t) ∧
         forRange (pod :: rest) (Reconcile_body E) t = forRange rest (Reconcile_body E) t') ∧
  (∀ t0, ∃ r t1,
     Reconcile E t0 = Ret (r, t1) ∧
     r = match PodsList E (calls t0) NamespaceAll labelSelector with
         | inl e => Some e
         | inr _ => None
         end).
Proof.
  intros Hfail. split.
  - destruct (Reconcile_body_skips E pod t Hfail) as (t' & Hbody & Hmut).
    exists t'. split; [done|]. split; [done|].
    simpl. by rewrite (bind_Ret _ _ _ _ _ Hbody).
  - intros t0. apply Reconcile_returns.
Qed.

(** C4.  The agent holds no check for the running, ready instance
    [default/web] (it answers the query with no check at all).  [Reconcile]
    queries the agent, registers nothing, and returns [nil]. *)
Theorem Reconcile_registers_nothing_on_empty_agent :
  callsOf (Reconcile emptyAgent handler0) =
    Some (None,
          [CPodsList NamespaceAll labelSelector;
           CAPIClient webAgent;
           CChecksWithFilter webAgent (checksFilter webReady)]) ∧
  (registrations <$> (snd <$> callsOf (Reconcile emptyAgent handler0))) = Some [].
Proof. split; vm_compute; reflexivity. Qed.

(** An instance for which no client can be built is passed over, and the
    sweep goes on with the instance after it. *)
Lemma Reconcile_instance_failure_witness :
  instanceFails noClient handler0 webReady ∧
  (∃ t', Reconcile_body noClient webReady handler0 = Ret ((), t') ∧
         mutations (calls t') = mutations (calls handler0) ∧
         forRange (webReady :: [webNotReady]) (Reconcile_body noClient) handler0 =
           forRange [webNotReady] (Reconcile_body noClient) t') ∧
  (∀ t0, ∃ r t1,
     Reconcile noClient t0 = Ret (r, t1) ∧
     r = match PodsList noClient (calls t0) NamespaceAll labelSelector with
         | inl e => Some e
         | inr _ => None
         end).
Proof.
  assert (instanceFails noClient handler0 webReady) as Hfail.
  { left. vm_compute. eexists. reflexivity. }
  split; [exact Hfail|].
  exact (Reconcile_instance_failure_is_not_fatal noClient handler0 webReady [webNotReady] Hfail).
Defined.

(** C8, as stated, fails for a readiness condition that is there and is
    malformed: the status of the [Ready] condition of the listed instance
    is neither [True] nor [False], its agent holds checks but not the check
    of the instance, and the sweep does not pass the instance over: it
    registers the check, as passing. *)
Lemma Reconcile_unknown_readiness_is_not_skipped :
  (corev1.Status <$>
     List.find (λ y, String.eqb (corev1.Type_ y) "Ready") (corev1.Conditions webUnknown)) =
    Some corev1.ConditionUnknown ∧
  callsOf (Reconcile unknownReadiness handler0) =
    Some (None,
          [CPodsList NamespaceAll labelSelector;
           CAPIClient webAgent;
           CChecksWithFilter webAgent (checksFilter webUnknown)] ++
          replicate 11 (CServices webAgent) ++
          [CCheckRegister webAgent
             (registration "web-web-kubernetes-health-check-ttl" "web-web"
                healthCheckPassing "")]) ∧
  (mutations <$> (snd <$> callsOf (Reconcile unknownReadiness handler0))) =
    Some [CCheckRegister webAgent
            (registration "web-web-kubernetes-health-check-ttl" "web-web"
               healthCheckPassing "")].
Proof. repeat split; vm_compute; reflexivity. Qed.

(** ** The event filter *)

Section EventFilter.

Context {T : Type}.

(** C6.  For every pair of instances whose old phase is [Pending] and new
    phase is [Running], whatever their conditions, [UpdateFunc] takes the
    create path: it enqueues the key [ADD/] followed by the key of the new
    instance, and nothing else. *)
Theorem UpdateFunc_Pending_to_Running (c : Controller T) (oldObj newObj : corev1.Pod) :
  corev1.Phase oldObj = corev1.PodPending →
  corev1.Phase newObj = corev1.PodRunning →
  ∃ key c',
    MetaNamespaceKeyFunc newObj = inr key ∧
    UpdateFunc oldObj newObj c = Ret ((), c') ∧
    events c' = events c ++ [EAdd ("ADD/" +:+ key)] ∧
    Queue c' = workqueue.Add ("ADD/" +:+ key) (Queue c).
Proof.
  intros Hold Hnew. unfold UpdateFunc.
  rewrite bool_decide_eq_false_2 by (intros ->; congruence).
  unfold bind at 1. unfold clogf at 1, modify at 1.
  rewrite !bool_decide_eq_true_2 by done. cbn [andb].
  unfold MetaNamespaceKeyFunc. case_bool_decide; go_unfold;
    eexists _, _; (split; [reflexivity|]); (split; [reflexivity|]); split; reflexivity.
Qed.

(** What [UpdateFunc] enqueues outside the create path.  For every pair of
    instances that is not a transition from [Pending] to [Running],
    [UpdateFunc] enqueues the key [UPDATE/] followed by the key of the new
    instance exactly when the new phase is [Running] and the two statuses
    it computes differ as values of [corev1.ConditionStatus]; otherwise it
    enqueues nothing. *)
Lemma UpdateFunc_status_change (c : Controller T) (oldObj newObj : corev1.Pod) :
  ¬ (corev1.Phase oldObj = corev1.PodPending ∧ corev1.Phase newObj = corev1.PodRunning) →
  ∃ key c',
    MetaNamespaceKeyFunc newObj = inr key ∧
    UpdateFunc oldObj newObj c = Ret ((), c') ∧
    events c' = events c ++
      if bool_decide (corev1.Phase newObj = corev1.PodRunning
                      ∧ podStatus oldObj ≠ podStatus newObj)
      then [EAdd ("UPDATE/" +:+ key)] else [].
Proof.
  intros Hnot. unfold UpdateFunc.
  assert (∃ key, MetaNamespaceKeyFunc newObj = inr key) as [key Hkey].
  { unfold MetaNamespaceKeyFunc. case_bool_decide; eauto. }
  exists key. rewrite Hkey.
  case_bool_decide as Heq.
  { subst. go_unfold. eexists. split; [done|]. split; [done|].
    rewrite bool_decide_eq_false_2 by (intros [_ ?]; done). by rewrite app_nil_r. }
  unfold bind at 1. unfold clogf at 1, modify at 1.
  assert (bool_decide (corev1.Phase oldObj = corev1.PodPending)
          && bool_decide (corev1.Phase newObj = corev1.PodRunning) = false) as ->.
  { rewrite <- bool_decide_and. by apply bool_decide_eq_false_2. }
  destruct (decide (corev1.Phase newObj = corev1.PodRunning)) as [Hrun|Hrun].
  - rewrite (bool_decide_eq_true_2 _ Hrun).
    destruct (decide (podStatus oldObj ≠ podStatus newObj)) as [Hst|Hst].
    + rewrite (bool_decide_eq_true_2 _ Hst), bool_decide_eq_true_2 by done.
      go_unfold. eexists. split; [done|]. split; reflexivity.
    + rewrite (bool_decide_eq_false_2 _ Hst), bool_decide_eq_false_2 by tauto.
      go_unfold. eexists. rewrite app_nil_r. split; [done|]. split; reflexivity.
  - rewrite (bool_decide_eq_false_2 _ Hrun), bool_decide_eq_false_2 by tauto.
    go_unfold. eexists. rewrite app_nil_r. split; [done|]. split; reflexivity.
Qed.

End EventFilter.

(** A pending instance that starts running with a failing readiness probe
    is enqueued for creation. *)
Lemma UpdateFunc_Pending_to_Running_witness :
  corev1.Phase webPending = corev1.PodPending ∧
  corev1.Phase webNotReady = corev1.PodRunning ∧
  ∃ key c',
    MetaNamespaceKeyFunc webNotReady = inr key ∧
    UpdateFunc webPending webNotReady idleController = Ret ((), c') ∧
    events c' = events idleController ++ [EAdd ("ADD/" +:+ key)] ∧
    Queue c' = workqueue.Add ("ADD/" +:+ key) (Queue idleController).
Proof.
  split; [reflexivity|]. split; [reflexivity|].
  apply (UpdateFunc_Pending_to_Running idleController webPending webNotReady); reflexivity.
Defined.

Example UpdateFunc_creates_web :
  eventsOf (UpdateFunc webPending webNotReady idleController) =
  Some ((), [EAdd "ADD/default/web"]).
Proof. vm_compute. reflexivity. Qed.

(** C7.  The running instance [default/web] is not ready before and after
    the event: the status of its [Ready] condition goes from [False] to
    [Unknown].  Neither status is [True], and [ObjectUpdated], which
    consumes the keys of the filter, reads both as not ready: it sets the
    check to failing for the one and for the other.  The readiness of the
    instance is unchanged, and [UpdateFunc] enqueues an [UPDATE] key for
    it. *)
Theorem UpdateFunc_False_to_Unknown_enqueues :
  corev1.Phase webNotReady = corev1.PodRunning ∧
  corev1.Phase webUnknown = corev1.PodRunning ∧
  specReady webNotReady = false ∧
  specReady webUnknown = false ∧
  (statusCalls <$> (snd <$> callsOf (ObjectUpdated emptyAgent (Some webNotReady) handler0))) =
    Some [CFailTTL webAgent "web-web-kubernetes-health-check-ttl"
            "containers with unready status: [web]"] ∧
  (statusCalls <$> (snd <$> callsOf (ObjectUpdated emptyAgent (Some webUnknown) handler0))) =
    Some [CFailTTL webAgent "web-web-kubernetes-health-check-ttl" "node is unreachable"] ∧
  eventsOf (UpdateFunc webNotReady webUnknown idleController) =
    Some ((), [EAdd "UPDATE/default/web"]).
Proof. repeat split; vm_compute; reflexivity. Qed.

(** However the three statuses are read as booleans, two instances with the
    same boolean get an [UPDATE] key: the filter compares statuses. *)
Lemma UpdateFunc_compares_statuses (b : corev1.ConditionStatus → bool) :
  ∃ oldObj newObj,
    b (podStatus oldObj) = b (podStatus newObj) ∧
    eventsOf (UpdateFunc oldObj newObj idleController) =
      Some ((), [EAdd "UPDATE/default/web"]).
Proof.
  destruct (b corev1.ConditionTrue) eqn:Ht, (b corev1.ConditionFalse) eqn:Hf,
    (b corev1.ConditionUnknown) eqn:Hu.
  all: first
    [ exists webReady, webNotReady; split;
        [change (b corev1.ConditionTrue = b corev1.ConditionFalse); congruence
        | vm_compute; reflexivity]
    | exists webNotReady, webUnknown; split;
        [change (b corev1.ConditionFalse = b corev1.ConditionUnknown); congruence
        | vm_compute; reflexivity]
    | exists webReady, webUnknown; split;
        [change (b corev1.ConditionTrue = b corev1.ConditionUnknown); congruence
        | vm_compute; reflexivity] ].
Qed.

(** A running instance whose readiness turns from [True] to [False] is
    enqueued for an update, though it was running before. *)
Example UpdateFunc_True_to_False :
  ¬ (corev1.Phase webReady = corev1.PodPending ∧ corev1.Phase webNotReady = corev1.PodRunning) ∧
  ∃ key c',
    MetaNamespaceKeyFunc webNotReady = inr key ∧
    UpdateFunc webReady webNotReady idleController = Ret ((), c') ∧
    events c' = events idleController ++
      if bool_decide (corev1.Phase webNotReady = corev1.PodRunning
                      ∧ podStatus webReady ≠ podStatus webNotReady)
      then [EAdd ("UPDATE/" +:+ key)] else [].
Proof.
  assert (¬ (corev1.Phase webReady = corev1.PodPending
             ∧ corev1.Phase webNotReady = corev1.PodRunning)) as Hnot.
  { intros [Hp _]. vm_compute in Hp. discriminate Hp. }
  split; [exact Hnot|].
  exact (UpdateFunc_status_change idleController webReady webNotReady Hnot).
Qed.

(** ** The worker loop *)

Lemma doneCalls_app key evs1 evs2 :
  doneCalls key (evs1 ++ evs2) = (doneCalls key evs1 + doneCalls key evs2)%nat.
Proof. unfold doneCalls. by rewrite List.filter_app, length_app. Qed.

Lemma dispatches_app evs1 evs2 : dispatches (evs1 ++ evs2) = dispatches evs1 ++ dispatches evs2.
Proof. apply List.filter_app. Qed.

Lemma reported_app evs1 evs2 : reported (evs1 ++ evs2) = reported evs1 ++ reported evs2.
Proof. apply omap_app. Qed.

Lemma forgotten_app evs1 evs2 : forgotten (evs1 ++ evs2) = forgotten evs1 ++ forgotten evs2.
Proof. apply omap_app. Qed.

(** Calls of the handler are no calls of the queue or of the error
    reporter. *)
Lemma dispatch_events_quiet (evs : list Event) key :
  Forall (λ e, isDispatch e = true) evs →
  doneCalls key evs = 0%nat ∧ reported evs = [] ∧ forgotten evs = [] ∧ dispatches evs = evs.
Proof.
  induction 1 as [|e evs He _ (IH1 & IH2 & IH3 & IH4)]; [done|].
  unfold doneCalls, dispatches in *.
  destruct e; try discriminate He; simpl;
    rewrite ?bool_decide_eq_false_2 by discriminate; rewrite ?IH4; done.
Qed.

Lemma lookupEvents_quiet key q maxRetries e0 :
  doneCalls key (lookupEvents key q maxRetries e0) = 0%nat ∧
  dispatches (lookupEvents key q maxRetries e0) = [].
Proof.
  unfold lookupEvents, doneCalls. destruct e0 as [e|]; [|done].
  destruct (_ <? _); simpl; rewrite ?bool_decide_eq_false_2 by discriminate; done.
Qed.

Section WorkerLoop.

Context {T : Type} `{Handler T}.

Ltac dispatch_done :=
  split; [reflexivity|]; split; [simpl; by rewrite <- ?app_assoc|];
  split; [by repeat constructor|]; split; [done|]; done.

(** [dispatch] runs the handler as [handlerDispatch] says, and records the
    calls. *)
Lemma dispatch_run (create : bool) item (c : Controller T) :
  match handlerDispatch create item (Handle c) with
  | Ret (err, h) =>
      ∃ c' evs,
        dispatch create item c = Ret (err, c') ∧
        events c' = events c ++ evs ∧
        Forall (λ e, isDispatch e = true) evs ∧
        (create = false → evs = [EObjectUpdated item]) ∧
        Queue c' = Queue c ∧ MaxRetries c' = MaxRetries c ∧ Handle c' = h
  | Panic msg => dispatch create item c = Panic msg
  | Blocked => dispatch create item c = Blocked
  | OutOfFuel => dispatch create item c = OutOfFuel
  end.
Proof.
  unfold handlerDispatch, dispatch. destruct create.
  - unfold bind at 1. go_unfold.
    destruct (handlerObjectCreated item (Handle c)) as [[[e|] h1]| | |]; simpl; try done.
    + eexists _, [_]. dispatch_done.
    + destruct (handlerObjectUpdated item h1) as [[err h2]| | |]; simpl; try done.
      eexists _, [_; _]. dispatch_done.
  - go_unfold.
    destruct (handlerObjectUpdated item (Handle c)) as [[err h2]| | |]; simpl; try done.
    eexists _, [_]. dispatch_done.
Qed.

Lemma lookupFailed_run key e0 (c : Controller T) :
  ∃ c2,
    lookupFailed key e0 c = Ret ((), c2) ∧
    events c2 = events c ++ lookupEvents key (Queue c) (MaxRetries c) e0 ∧
    Queue c2 = lookupQueue key (Queue c) (MaxRetries c) e0 ∧
    Handle c2 = Handle c ∧ MaxRetries c2 = MaxRetries c.
Proof.
  unfold lookupFailed, lookupEvents, lookupQueue. destruct e0 as [e|].
  - go_unfold. destruct (_ <? _); eexists; (split; [reflexivity|]); simpl;
      rewrite <- ?app_assoc; done.
  - eexists. split; [reflexivity|]. by rewrite app_nil_r.
Qed.

(** One round of the worker loop on the key [key] it dequeues, for every
    answer of the cache and every outcome of the handler: the round ends
    with [true], and its events are the dequeue, those of the failed
    lookup, the calls of the handler, and what is done with the queue after
    them. *)
Lemma processNextItem_run (c : Controller T) key q item (exists_ : bool) e0 :
  workqueue.Get (Queue c) = Some ((key, false), q) →
  GetByKey (Informer c) (keyRaw key) = (item, exists_, e0) →
  let levs := lookupEvents key q (MaxRetries c) e0 in
  let q2 := lookupQueue key q (MaxRetries c) e0 in
  if exists_ then
    match handlerDispatch (keyCreate key) item (Handle c) with
    | Ret (err, h) =>
        ∃ c' devs,
          processNextItem c = Ret (true, c') ∧
          Handle c' = h ∧
          Forall (λ e, isDispatch e = true) devs ∧
          (keyCreate key = false → devs = [EObjectUpdated item]) ∧
          events c' = events c ++ [EGet key false] ++ levs ++ devs ++
            match err with
            | None => [EForget key; EDone key]
            | Some _ =>
                if workqueue.NumRequeues key q2 <? MaxRetries c
                then [EAddRateLimited key] else []
            end
    | Panic msg => processNextItem c = Panic msg
    | Blocked => processNextItem c = Blocked
    | OutOfFuel => processNextItem c = OutOfFuel
    end
  else
    ∃ c',
      processNextItem c = Ret (true, c') ∧
      Handle c' = Handle c ∧
      events c' = events c ++ [EGet key false] ++ levs ++
        match e0 with None => [EDone key] | Some _ => [] end.
Proof.
  intros Hget Hlookup levs q2. subst levs q2.
  unfold keyRaw in Hlookup. unfold keyCreate.
  remember (processNextItem c) as out eqn:Hout.
  unfold processNextItem in Hout.
  unfold bind at 1 in Hout. unfold clogf at 1, modify at 1 in Hout.
  unfold bind at 1 in Hout. unfold Queue_Get at 1 in Hout. ctrl_simpl in Hout.
  rewrite Hget in Hout. ctrl_simpl in Hout.
  destruct (GoStrings.Split key "/") as [|k0 rest] eqn:Hsplit;
    [by apply Split_nonempty in Hsplit|].
  simpl in Hlookup. change (head (k0 :: rest)) with (Some k0).
  unfold bind at 1 in Hout. unfold get at 1 in Hout. ctrl_simpl in Hout.
  rewrite Hlookup in Hout.
  unfold bind at 1 in Hout.
  match type of Hout with context [lookupFailed key e0 ?c1] =>
    destruct (lookupFailed_run key e0 c1) as (c2 & Hl & Hevs2 & Hq2 & Hh2 & Hm2) end.
  rewrite Hl in Hout. ctrl_simpl in Hevs2. ctrl_simpl in Hq2. ctrl_simpl in Hh2.
  ctrl_simpl in Hm2.
  assert ((if bool_decide (k0 ≠ "ADD") then false else true)
          = bool_decide (Some k0 = Some "ADD")) as Hcreate.
  { do 2 case_bool_decide; congruence. }
  rewrite Hcreate in Hout. clear Hcreate.
  set (create := bool_decide (Some k0 = Some "ADD")) in *.
  destruct exists_.
  - unfold bind at 1 in Hout. unfold bind at 1 in Hout.
    pose proof (dispatch_run create item c2) as Hd. rewrite Hh2 in Hd.
    destruct (handlerDispatch create item (Handle c)) as [[err h]| | |];
      [|rewrite Hd in Hout; exact Hout ..].
    destruct Hd as (c3 & devs & Hd & Hevs3 & Hdevs & Hupd & Hq3 & Hm3 & Hh3).
    rewrite Hd in Hout. clear Hd Hl.
    destruct err as [e|]; autounfold with go in Hout; simpl in Hout.
    + rewrite Hq3, Hq2, Hm3, Hm2 in Hout.
      destruct (_ <? _); subst out; eexists _, devs;
        (split; [reflexivity|]); simpl; rewrite ?Hevs3, ?Hevs2, <- ?app_assoc;
        repeat split; try done; rewrite ?app_nil_r; done.
    + subst out. eexists _, devs.
      (split; [reflexivity|]); simpl; rewrite ?Hevs3, ?Hevs2, <- ?app_assoc;
        repeat split; done.
  - autounfold with go in Hout; simpl in Hout.
    destruct e0 as [e|]; simpl in Hout; subst out; eexists;
      (split; [reflexivity|]); simpl; rewrite ?Hevs2, <- ?app_assoc;
      unfold lookupEvents; simpl; rewrite ?app_nil_r; done.
Qed.

(** The rounds that call [Done].  For every key dequeued by
    [processNextItem], [Done(key)] is called at most once before the round
    ends: once when the round ends without error (the instance is not in
    the cache and the lookup did not fail, or the handler returned [nil]),
    and not at all when the lookup failed for an instance that is not in
    the cache or the handler returned an error. *)
Lemma processNextItem_Done_iff_no_error
    (c : Controller T) key q item (exists_ : bool) e0 :
  workqueue.Get (Queue c) = Some ((key, false), q) →
  GetByKey (Informer c) (keyRaw key) = (item, exists_, e0) →
  if exists_ then
    match handlerDispatch (keyCreate key) item (Handle c) with
    | Ret (err, h) =>
        ∃ c' evs,
          processNextItem c = Ret (true, c') ∧
          events c' = events c ++ evs ∧
          doneCalls key evs = match err with None => 1%nat | Some _ => 0%nat end
    | Panic msg => processNextItem c = Panic msg
    | Blocked => processNextItem c = Blocked
    | OutOfFuel => processNextItem c = OutOfFuel
    end
  else
    ∃ c' evs,
      processNextItem c = Ret (true, c') ∧
      events c' = events c ++ evs ∧
      doneCalls key evs = match e0 with None => 1%nat | Some _ => 0%nat end.
Proof.
  intros Hget Hlookup.
  pose proof (processNextItem_run c key q item exists_ e0 Hget Hlookup) as Hrun.
  cbv zeta in Hrun. destruct exists_.
  - destruct (handlerDispatch (keyCreate key) item (Handle c)) as [[err h]| | |]; try done.
    destruct Hrun as (c' & devs & Hp & _ & Hdevs & _ & Hevs).
    eexists c', _. split; [done|]. split; [exact Hevs|].
    rewrite !doneCalls_app.
    destruct (dispatch_events_quiet devs key Hdevs) as (-> & _).
    destruct (lookupEvents_quiet key q (MaxRetries c) e0) as (-> & _).
    unfold doneCalls. destruct err as [e|]; simpl.
    + destruct (_ <? _); simpl; rewrite ?bool_decide_eq_false_2 by discriminate; done.
    + rewrite ?bool_decide_eq_false_2 by discriminate.
      by rewrite bool_decide_eq_true_2.
  - destruct Hrun as (c' & Hp & _ & Hevs).
    eexists c', _. split; [done|]. split; [exact Hevs|].
    rewrite !doneCalls_app.
    destruct (lookupEvents_quiet key q (MaxRetries c) e0) as (-> & _).
    unfold doneCalls. destruct e0 as [e|]; simpl;
      rewrite ?bool_decide_eq_false_2 by discriminate;
      rewrite ?bool_decide_eq_true_2 by done; done.
Qed.

(** C10.  For every dequeued key whose first piece is not [ADD], whatever
    the pieces of the key are and whatever the cache answers for the rest
    of the key: splitting the key does not fail; when the cache holds an
    instance, the round runs [ObjectUpdated] on it and nothing else of the
    handler, and ends with [true] when that returns; when the cache holds
    none, the round calls nothing of the handler and ends with [true].  The
    only error a round can have reported is that of the lookup: none is
    raised for the shape of the key. *)
Theorem processNextItem_other_key_is_update
    (c : Controller T) key q item (exists_ : bool) e0 :
  workqueue.Get (Queue c) = Some ((key, false), q) →
  head (GoStrings.Split key "/") ≠ Some "ADD" →
  GetByKey (Informer c) (GoStrings.Join (tail (GoStrings.Split key "/")) "/")
    = (item, exists_, e0) →
  GoStrings.Split key "/" ≠ [] ∧
  let lookupError :=
    match e0 with
    | None => []
    | Some e => if workqueue.NumRequeues key q <? MaxRetries c then [] else [e]
    end in
  if exists_ then
    match handlerObjectUpdated item (Handle c) with
    | Ret (err, h) =>
        ∃ c' evs,
          processNextItem c = Ret (true, c') ∧
          events c' = events c ++ evs ∧
          dispatches evs = [EObjectUpdated item] ∧
          Handle c' = h ∧
          reported evs = lookupError
    | Panic msg => processNextItem c = Panic msg
    | Blocked => processNextItem c = Blocked
    | OutOfFuel => processNextItem c = OutOfFuel
    end
  else
    ∃ c' evs,
      processNextItem c = Ret (true, c') ∧
      events c' = events c ++ evs ∧
      dispatches evs = [] ∧
      Handle c' = Handle c ∧
      reported evs = lookupError.
Proof.
  intros Hget Hhead Hlookup. split; [apply Split_nonempty|]. cbv zeta.
  pose proof (processNextItem_run c key q item exists_ e0 Hget Hlookup) as Hrun.
  cbv zeta in Hrun. destruct exists_.
  - assert (keyCreate key = false) as Hcreate by (by apply bool_decide_eq_false_2).
    rewrite Hcreate in Hrun. unfold handlerDispatch in Hrun.
    destruct (handlerObjectUpdated item (Handle c)) as [[err h]| | |]; try done.
    destruct Hrun as (c' & devs & Hp & Hh & _ & Hdevs & Hevs).
    rewrite (Hdevs eq_refl) in Hevs.
    eexists c', _. split; [done|]. split; [exact Hevs|].
    rewrite !dispatches_app, !reported_app.
    destruct (lookupEvents_quiet key q (MaxRetries c) e0) as (_ & ->).
    split; [|split; [done|]].
    + destruct err as [e|]; simpl; [destruct (_ <? _)|]; done.
    + unfold lookupEvents. destruct e0 as [e|], err as [e'|]; simpl;
        repeat destruct (_ <? _); done.
  - destruct Hrun as (c' & Hp & Hh & Hevs).
    eexists c', _. split; [done|]. split; [exact Hevs|].
    rewrite !dispatches_app, !reported_app.
    destruct (lookupEvents_quiet key q (MaxRetries c) e0) as (_ & ->).
    split; [|split; [done|]].
    + destruct e0 as [e|]; done.
    + unfold lookupEvents. destruct e0 as [e|]; simpl; [destruct (_ <? _)|]; done.
Qed.

(** When the handler fails for a key that has no retry left, the round
    neither forgets the key nor reports the error, nor marks the key
    done. *)
Lemma handler_failure_exhausted (c : Controller T) key q item e h :
  workqueue.Get (Queue c) = Some ((key, false), q) →
  GetByKey (Informer c) (keyRaw key) = (item, true, None) →
  handlerDispatch (keyCreate key) item (Handle c) = Ret (Some e, h) →
  MaxRetries c ≤ workqueue.NumRequeues key q →
  ∃ c' evs,
    processNextItem c = Ret (true, c') ∧
    events c' = events c ++ [EGet key false] ++ evs ∧
    dispatches evs = evs.
Proof.
  intros Hget Hlookup Hdispatch Hmax.
  pose proof (processNextItem_run c key q item true None Hget Hlookup) as Hrun.
  cbv zeta in Hrun. rewrite Hdispatch in Hrun.
  destruct Hrun as (c' & devs & Hp & _ & Hdevs & _ & Hevs).
  simpl in Hevs. destruct (Z.ltb_spec (workqueue.NumRequeues key q) (MaxRetries c)); [lia|].
  rewrite app_nil_r in Hevs.
  exists c', devs. split; [done|]. split; [done|].
  by destruct (dispatch_events_quiet devs key Hdevs) as (_ & _ & _ & ->).
Qed.

(** When the lookup fails for a key that has no retry left, the round
    forgets the key and reports the error, once. *)
Lemma lookup_failure_exhausted (c : Controller T) key q item e :
  workqueue.Get (Queue c) = Some ((key, false), q) →
  GetByKey (Informer c) (keyRaw key) = (item, false, Some e) →
  MaxRetries c ≤ workqueue.NumRequeues key q →
  ∃ c',
    processNextItem c = Ret (true, c') ∧
    events c' = events c ++ [EGet key false; EForget key; EHandleError e].
Proof.
  intros Hget Hlookup Hmax.
  pose proof (processNextItem_run c key q item false (Some e) Hget Hlookup) as Hrun.
  cbv zeta in Hrun. destruct Hrun as (c' & Hp & _ & Hevs).
  simpl in Hevs. destruct (Z.ltb_spec (workqueue.NumRequeues key q) (MaxRetries c)); [lia|].
  exists c'. by split.
Qed.

End WorkerLoop.

(** C2.  The controller allows no retry ([MaxRetries] is 0), the instance
    [default/web] is in the cache, and its agent cannot be reached, so that
    [ObjectUpdated] fails: the key has failed [MaxRetries + 1] times.  The
    round dequeues the key and calls the handler, and that is all: the key
    is not forgotten, no error is reported, and the key stays among those
    being processed. *)
Theorem handler_failure_is_dropped_unreported :
  eventsOf (processNextItemIn unreachableAgent
              (controllerWith 0 "UPDATE/default/web" webReady)) =
    Some (true, [EGet "UPDATE/default/web" false; EObjectUpdated (Some webReady)]) ∧
  match processNextItemIn unreachableAgent (controllerWith 0 "UPDATE/default/web" webReady) with
  | Ret (_, c') =>
      forgotten (events c') = [] ∧ reported (events c') = [] ∧
      workqueue.processing (Queue c') = {[ "UPDATE/default/web" ]} ∧
      workqueue.waiting (Queue c') = [] ∧
      calls (Handle c') =
        [CAPIClient webAgent; CPassTTL webAgent "web-web-kubernetes-health-check-ttl" ""]
  | _ => False
  end.
Proof. split; vm_compute; [reflexivity | repeat split; reflexivity]. Qed.

(** The same failure of the lookup, with no retry left, is reported. *)
Example lookup_failure_is_reported :
  eventsOf (processNextItemIn emptyAgent
              {| CtrlLog := []; Queue := workqueue.Add "UPDATE/default/web" queue0;
                 Informer := {| GetByKey := λ _, (None, false, Some connectionRefused) |};
                 Handle := handler0; MaxRetries := 0; events := [] |}) =
  Some (true, [EGet "UPDATE/default/web" false; EForget "UPDATE/default/web";
               EHandleError connectionRefused]).
Proof. vm_compute. reflexivity. Qed.

(** In the round of a key whose update fails, [Done] is not called. *)
Example failed_update_is_not_Done :
  (λ r, doneCalls "UPDATE/default/web" r.2) <$>
    eventsOf (processNextItemIn unreachableAgent
                (controllerWith 0 "UPDATE/default/web" webReady)) =
  Some 0%nat.
Proof. vm_compute. reflexivity. Qed.

(** A round that succeeds: the key is forgotten and marked done, once. *)
Example successful_update_is_Done :
  eventsOf (processNextItemIn emptyAgent (controllerWith 5 "UPDATE/default/web" webReady)) =
  Some (true, [EGet "UPDATE/default/web" false; EObjectUpdated (Some webReady);
               EForget "UPDATE/default/web"; EDone "UPDATE/default/web"]).
Proof. vm_compute. reflexivity. Qed.

(** The update of a cached instance that succeeds is marked done once. *)
Example successful_update_is_Done_once :
  let c := controllerWith 5 "UPDATE/default/web" webReady in
  workqueue.Get (Queue c) = Some (("UPDATE/default/web", false), afterGet (Queue c)) ∧
  GetByKey (Informer c) (keyRaw "UPDATE/default/web") = (Some webReady, true, None) ∧
  match @handlerDispatch _ (HealthCheckHandler_Handler emptyAgent)
          (keyCreate "UPDATE/default/web") (Some webReady) (Handle c) with
  | Ret (err, h) =>
      ∃ c' evs,
        processNextItemIn emptyAgent c = Ret (true, c') ∧
        events c' = events c ++ evs ∧
        doneCalls "UPDATE/default/web" evs = match err with None => 1%nat | Some _ => 0%nat end
  | Panic msg => processNextItemIn emptyAgent c = Panic msg
  | Blocked => processNextItemIn emptyAgent c = Blocked
  | OutOfFuel => processNextItemIn emptyAgent c = OutOfFuel
  end.
Proof.
  intros c.
  assert (workqueue.Get (Queue c) = Some (("UPDATE/default/web", false), afterGet (Queue c)))
    as Hget by (vm_compute; reflexivity).
  assert (GetByKey (Informer c) (keyRaw "UPDATE/default/web") = (Some webReady, true, None))
    as Hlookup by (vm_compute; reflexivity).
  split; [exact Hget|]. split; [exact Hlookup|].
  exact (@processNextItem_Done_iff_no_error _ (HealthCheckHandler_Handler emptyAgent)
           c "UPDATE/default/web" (afterGet (Queue c)) (Some webReady) true None
           Hget Hlookup).
Qed.

(** A key with an unknown action is run as an update of the instance; and
    the key [UPDATE], which names no instance, is looked up as the empty
    key, for which the cache holds nothing: the round calls nothing of the
    handler, reports nothing, and ends with [true]. *)
Lemma processNextItem_other_key_witness :
  let c := controllerWith 5 "SYNC/default/web" webNotReady in
  let d := controllerWith 5 "UPDATE" webNotReady in
  (workqueue.Get (Queue c) = Some (("SYNC/default/web", false), afterGet (Queue c)) ∧
   head (GoStrings.Split "SYNC/default/web" "/") ≠ Some "ADD" ∧
   GetByKey (Informer c) (GoStrings.Join (tail (GoStrings.Split "SYNC/default/web" "/")) "/")
     = (Some webNotReady, true, None) ∧
   GoStrings.Split "SYNC/default/web" "/" ≠ [] ∧
   match ObjectUpdated emptyAgent (Some webNotReady) (Handle c) with
   | Ret (err, h) =>
       ∃ c' evs,
         processNextItemIn emptyAgent c = Ret (true, c') ∧
         events c' = events c ++ evs ∧
         dispatches evs = [EObjectUpdated (Some webNotReady)] ∧
         Handle c' = h ∧
         reported evs = []
   | Panic msg => processNextItemIn emptyAgent c = Panic msg
   | Blocked => processNextItemIn emptyAgent c = Blocked
   | OutOfFuel => processNextItemIn emptyAgent c = OutOfFuel
   end) ∧
  (workqueue.Get (Queue d) = Some (("UPDATE", false), afterGet (Queue d)) ∧
   head (GoStrings.Split "UPDATE" "/") ≠ Some "ADD" ∧
   GetByKey (Informer d) (GoStrings.Join (tail (GoStrings.Split "UPDATE" "/")) "/")
     = (None, false, None) ∧
   GoStrings.Split "UPDATE" "/" ≠ [] ∧
   ∃ d' evs,
     processNextItemIn emptyAgent d = Ret (true, d') ∧
     events d' = events d ++ evs ∧
     dispatches evs = [] ∧
     Handle d' = Handle d ∧
     reported evs = []).
Proof.
  intros c d. split.
  - assert (workqueue.Get (Queue c) = Some (("SYNC/default/web", false), afterGet (Queue c)))
      as Hget by (vm_compute; reflexivity).
    assert (head (GoStrings.Split "SYNC/default/web" "/") ≠ Some "ADD") as Hhead
      by (vm_compute; discriminate).
    assert (GetByKey (Informer c)
              (GoStrings.Join (tail (GoStrings.Split "SYNC/default/web" "/")) "/")
            = (Some webNotReady, true, None)) as Hlookup by (vm_compute; reflexivity).
    split; [exact Hget|]. split; [exact Hhead|]. split; [exact Hlookup|].
    exact (@processNextItem_other_key_is_update _ (HealthCheckHandler_Handler emptyAgent)
             c "SYNC/default/web" (afterGet (Queue c)) (Some webNotReady) true None
             Hget Hhead Hlookup).
  - assert (workqueue.Get (Queue d) = Some (("UPDATE", false), afterGet (Queue d)))
      as Hget by (vm_compute; reflexivity).
    assert (head (GoStrings.Split "UPDATE" "/") ≠ Some "ADD") as Hhead
      by (vm_compute; discriminate).
    assert (GetByKey (Informer d) (GoStrings.Join (tail (GoStrings.Split "UPDATE" "/")) "/")
            = (None, false, None)) as Hlookup by (vm_compute; reflexivity).
    split; [exact Hget|]. split; [exact Hhead|]. split; [exact Hlookup|].
    exact (@processNextItem_other_key_is_update _ (HealthCheckHandler_Handler emptyAgent)
             d "UPDATE" (afterGet (Queue d)) None false None
             Hget Hhead Hlookup).
Defined.

Example unknown_action_is_update :
  eventsOf (processNextItemIn emptyAgent (controllerWith 5 "SYNC/default/web" webNotReady)) =
  Some (true, [EGet "SYNC/default/web" false; EObjectUpdated (Some webNotReady);
               EForget "SYNC/default/web"; EDone "SYNC/default/web"]).
Proof. vm_compute. reflexivity. Qed.

(** A key with no action: its first piece is taken for the action and the
    rest is looked up; nothing is found, nothing is reported, and the key is
    marked done. *)
Example key_without_action :
  eventsOf (processNextItemIn emptyAgent (controllerWith 5 "default/web" webReady)) =
  Some (true, [EGet "default/web" false; EDone "default/web"]).
Proof. vm_compute. reflexivity. Qed.

(** The create path runs [ObjectCreated] and then [ObjectUpdated]. *)
Example ADD_key_is_create :
  eventsOf (processNextItemIn emptyAgent (controllerWith 5 "ADD/default/web" webReady)) =
  Some (true, [EGet "ADD/default/web" false; EObjectCreated (Some webReady);
               EObjectUpdated (Some webReady);
               EForget "ADD/default/web"; EDone "ADD/default/web"]).
Proof. vm_compute. reflexivity. Qed.

(** A key whose round failed is not handed out again: [Done] was not
    called, so that when the delay of its retry elapses the key is marked
    dirty but not queued, and the next round blocks on the empty queue. *)
Example failed_key_is_not_retried :
  match processNextItemIn unreachableAgent (controllerWith 5 "UPDATE/default/web" webReady) with
  | Ret (_, c') =>
      events c' = [EGet "UPDATE/default/web" false; EObjectUpdated (Some webReady);
                   EAddRateLimited "UPDATE/default/web"] ∧
      workqueue.waiting (Queue c') = ["UPDATE/default/web"] ∧
      workqueue.queue (workqueue.Elapse "UPDATE/default/web" (Queue c')) = [] ∧
      processNextItemIn unreachableAgent
        (setQueue (workqueue.Elapse "UPDATE/default/web" (Queue c')) c') = Blocked
  | _ => False
  end.
Proof. vm_compute. repeat split; reflexivity. Qed.

(** C3.  The instance [default/web] is in the cache, its agent cannot be
    reached, and the controller allows five retries.  The round of the key
    [UPDATE/default/web] fails and asks for the retry ([AddRateLimited]),
    and does not call [Done]: the key stays among those being processed.
    So the retry never comes.  When its delay elapses, and when the event
    filter adds the key again, the queue only marks the key dirty: it hands
    nothing out, and the worker blocks.  With [Done] called on the key,
    before or after the delay elapses, the key is queued again. *)
Theorem failed_round_is_not_Done :
  match processNextItemIn unreachableAgent (controllerWith 5 "UPDATE/default/web" webReady) with
  | Ret (continue, c') =>
      let q := Queue c' in
      continue = true ∧
      events c' = [EGet "UPDATE/default/web" false; EObjectUpdated (Some webReady);
                   EAddRateLimited "UPDATE/default/web"] ∧
      doneCalls "UPDATE/default/web" (events c') = 0%nat ∧
      workqueue.processing q = {[ "UPDATE/default/web" ]} ∧
      workqueue.waiting q = ["UPDATE/default/web"] ∧
      workqueue.queue (workqueue.Elapse "UPDATE/default/web" q) = [] ∧
      workqueue.queue (workqueue.Add "UPDATE/default/web" q) = [] ∧
      workqueue.queue
        (workqueue.Add "UPDATE/default/web" (workqueue.Elapse "UPDATE/default/web" q)) = [] ∧
      processNextItemIn unreachableAgent
        (setQueue (workqueue.Elapse "UPDATE/default/web" q) c') = Blocked ∧
      workqueue.queue
        (workqueue.Elapse "UPDATE/default/web" (workqueue.Done "UPDATE/default/web" q))
        = ["UPDATE/default/web"] ∧
      workqueue.queue
        (workqueue.Done "UPDATE/default/web" (workqueue.Elapse "UPDATE/default/web" q))
        = ["UPDATE/default/web"]
  | _ => False
  end.
Proof. vm_compute. repeat split; reflexivity. Qed.

(** * Further properties *)

(** ** Registration: the polls of the services *)

(** X1.  With a client bound, [registerConsulHealthCheck] polls the
    services of the agent at most eleven times and then always sends the
    registration of the check; what it returns is the answer to the
    registration, whatever the polls answered. *)
Theorem registerConsulHealthCheck_polls_then_registers
    (E : Env) (id sid st reason : string) (t : HealthCheckHandler) (addr : string) :
  Client t = Some addr →
  ∃ k t',
    (k ≤ 11)%nat ∧
    registerConsulHealthCheck E id sid st reason t =
      Ret (CheckRegister E (calls t ++ replicate k (CServices addr)) addr
             (registration id sid st reason), t') ∧
    calls t' = calls t ++ replicate k (CServices addr) ++
               [CCheckRegister addr (registration id sid st reason)] ∧
    Client t' = Some addr.
Proof.
  intros Hc.
  destruct (registerConsulHealthCheck_registers E id sid st reason t addr Hc)
    as (k & t' & Hk & Hr & Hcalls & Hc' & _).
  exists k, t'. rewrite <- app_assoc in Hcalls. done.
Qed.

(** On an agent that cannot be reached: eleven polls, then the registration,
    whose error is returned. *)
Lemma registerConsulHealthCheck_polls_witness :
  Client boundHandler = Some webAgent ∧
  ∃ k t',
    (k ≤ 11)%nat ∧
    registerConsulHealthCheck unreachableAgent "check" "web-web" healthCheckPassing ""
      boundHandler =
      Ret (CheckRegister unreachableAgent
             (calls boundHandler ++ replicate k (CServices webAgent)) webAgent
             (registration "check" "web-web" healthCheckPassing ""), t') ∧
    calls t' = calls boundHandler ++ replicate k (CServices webAgent) ++
               [CCheckRegister webAgent (registration "check" "web-web" healthCheckPassing "")] ∧
    Client t' = Some webAgent.
Proof.
  split; [reflexivity|].
  apply (registerConsulHealthCheck_polls_then_registers unreachableAgent
           "check" "web-web" healthCheckPassing "" boundHandler webAgent).
  reflexivity.
Defined.

Lemma existsb_service_found (svc : gmap string api.AgentService) key y sid :
  svc !! key = Some y → api.Service y = sid →
  existsb (λ y, String.eqb (api.Service y) sid) (map_to_list svc).*2 = true.
Proof.
  intros Hy Hs. apply existsb_exists. exists y. split.
  - apply list_elem_of_In. apply list_elem_of_fmap. exists (key, y). split; [done|].
    by apply elem_of_map_to_list.
  - by apply String.eqb_eq.
Qed.

(** X2.  With a client bound, when the first answer of the agent lists a
    service whose name is the service id, [registerConsulHealthCheck] polls
    once and sends the registration. *)
Theorem registerConsulHealthCheck_service_seen_at_first_poll
    (E : Env) (id sid st reason : string) (t : HealthCheckHandler) (addr : string)
    (svc : gmap string api.AgentService) (key : string) (y : api.AgentService) :
  Client t = Some addr →
  Services E (calls t) addr = inr svc →
  svc !! key = Some y →
  api.Service y = sid →
  ∃ t',
    registerConsulHealthCheck E id sid st reason t =
      Ret (CheckRegister E (calls t ++ [CServices addr]) addr (registration id sid st reason), t') ∧
    calls t' = calls t ++ [CServices addr; CCheckRegister addr (registration id sid st reason)].
Proof.
  intros Hc Hsvc Hy Hs.
  unfold registerConsulHealthCheck.
  unfold bind at 1. unfold logf at 1, modify at 1.
  unfold bind at 1. unfold withLocals at 1. unfold retryFuel. rewrite Retry_S.
  unfold bind at 1.
  rewrite (operation_poll _ _ _ _ addr) by done.
  change (calls (addLog (LError, "registerPassingHealthCheck, %v %v") t)) with (calls t). rewrite Hsvc.
  rewrite (existsb_service_found svc key y sid Hy Hs).
  go_unfold. rewrite Hc. simpl.
  destruct (CheckRegister E _ addr _); eexists; (split; [reflexivity|]); simpl;
    by rewrite <- app_assoc.
Qed.

Lemma registerConsulHealthCheck_seen_witness :
  let svc : gmap string api.AgentService :=
    {[ "web-web" := {| api.ID := "web-web"; api.Service := "web-web" |} ]} in
  let reg := registration "check" "web-web" healthCheckPassing "" in
  Client boundHandler = Some webAgent ∧
  Services seenService (calls boundHandler) webAgent = inr svc ∧
  svc !! "web-web" = Some {| api.ID := "web-web"; api.Service := "web-web" |} ∧
  ∃ t',
    registerConsulHealthCheck seenService "check" "web-web" healthCheckPassing "" boundHandler =
      Ret (CheckRegister seenService (calls boundHandler ++ [CServices webAgent]) webAgent reg,
           t') ∧
    calls t' = calls boundHandler ++ [CServices webAgent; CCheckRegister webAgent reg].
Proof.
  intros svc reg.
  assert (svc !! "web-web" = Some {| api.ID := "web-web"; api.Service := "web-web" |})
    as Hy by (vm_compute; reflexivity).
  split; [reflexivity|]. split; [reflexivity|]. split; [exact Hy|].
  exact (registerConsulHealthCheck_service_seen_at_first_poll seenService
           "check" "web-web" healthCheckPassing "" boundHandler webAgent svc "web-web"
           {| api.ID := "web-web"; api.Service := "web-web" |}
           eq_refl eq_refl Hy eq_refl).
Defined.

(** ** Create, delete and update *)

(** X3.  [ObjectCreated] on an instance always returns.  When no client can
    be built for the agent of the instance it returns that error, having
    sent nothing to the agent.  Otherwise it polls the services at most
    eleven times, sends the registration of the check of the instance with
    status passing and an empty reason, and returns the answer to the
    registration; the client stays bound. *)
Theorem ObjectCreated_binds_then_registers (E : Env) (t : HealthCheckHandler) (pod : corev1.Pod) :
  let addr := newAddr (ConsulPort t) pod in
  let reg := registration (getConsulHealthCheckID pod) (getConsulServiceID pod)
               healthCheckPassing "" in
  ∃ r t' new,
    ObjectCreated E (Some pod) t = Ret (r, t') ∧
    calls t' = calls t ++ new ∧
    match APIClient E (calls t) addr with
    | Some e => r = Some e ∧ new = [CAPIClient addr] ∧ Client t' = None
    | None =>
        ∃ k, (k ≤ 11)%nat ∧
          new = [CAPIClient addr] ++ replicate k (CServices addr) ++ [CCheckRegister addr reg] ∧
          r = CheckRegister E (calls t ++ [CAPIClient addr] ++ replicate k (CServices addr))
                addr reg ∧
          Client t' = Some addr
    end.
Proof.
  intros addr reg. unfold ObjectCreated, assertPod.
  unfold bind at 1. unfold ret at 1. unfold bind at 1.
  rewrite updateConsulClient_eq. cbv zeta. fold addr.
  destruct (APIClient E (calls t) addr) as [e|] eqn:Hapi.
  - go_unfold. eexists _, _, _. split; [reflexivity|]. simpl. done.
  - match goal with |- context [bind (registerConsulHealthCheck E ?i ?sv ?st ?r) _ ?s] =>
      destruct (registerConsulHealthCheck_registers E i sv st r s addr)
        as (k & t1 & Hk & Hr & Hcalls & Hc & _); [reflexivity|];
      rewrite (bind_Ret _ _ _ _ _ Hr)
    end.
    simpl in Hcalls. fold reg in Hcalls |- *.
    match goal with |- context [CheckRegister E ?h addr reg] =>
      assert (h = calls t ++ [CAPIClient addr] ++ replicate k (CServices addr)) as ->
        by (simpl; by rewrite <- app_assoc) end.
    destruct (CheckRegister E _ addr reg) as [e|] eqn:Hreg; go_unfold;
      eexists _, _, _; (split; [reflexivity|]); simpl; rewrite Hcalls, <- !app_assoc;
      (split; [reflexivity|]); exists k; done.
Qed.

(** X4.  [ObjectDeleted] on an instance always returns.  When no client can
    be built it returns that error and sends nothing to the agent.
    Otherwise it sends one deregistration of the check of the instance and
    returns [nil], whether the deregistration failed or not. *)
Theorem ObjectDeleted_ignores_deregistration_error
    (E : Env) (t : HealthCheckHandler) (pod : corev1.Pod) :
  let addr := newAddr (ConsulPort t) pod in
  ∃ r t' new,
    ObjectDeleted E (Some pod) t = Ret (r, t') ∧
    calls t' = calls t ++ new ∧
    match APIClient E (calls t) addr with
    | Some e => r = Some e ∧ new = [CAPIClient addr]
    | None =>
        r = None ∧
        new = [CAPIClient addr; CCheckDeregister addr (getConsulHealthCheckID pod)]
    end.
Proof.
  intros addr. unfold ObjectDeleted, assertPod.
  unfold bind at 1. unfold ret at 1. unfold bind at 1. unfold logf at 1, modify at 1.
  unfold bind at 1. rewrite updateConsulClient_eq. cbv zeta.
  simpl calls. simpl ConsulPort. fold addr.
  destruct (APIClient E (calls t) addr) as [e|] eqn:Hapi.
  - go_unfold. eexists _, _, _. split; [reflexivity|]. simpl. done.
  - unfold deregisterConsulHealthCheck. go_unfold.
    destruct (CheckDeregister E _ addr _); simpl;
      eexists _, _, _; (split; [reflexivity|]); simpl; rewrite <- ?app_assoc; done.
Qed.

Lemma ObjectUpdated_loop_result E id conds : ∀ err0 t addr,
  Client t = Some addr →
  ∃ t',
    ObjectUpdated_loop E id conds err0 t =
      Ret (match List.find readyCondition conds with
           | None => err0
           | Some y =>
               if bool_decide (corev1.Status y = corev1.ConditionTrue)
               then PassTTL E (calls t) addr id (corev1.Message y)
               else FailTTL E (calls t) addr id (corev1.Message y)
           end, t').
Proof.
  induction conds as [|y rest IH]; intros err0 t addr Hc; simpl.
  - by eexists.
  - unfold readyCondition at 1.
    destruct (String.eqb (corev1.Type_ y) "Ready") eqn:Hty; simpl; [|by apply IH].
    destruct (corev1.Status y) eqn:Hst; simpl;
      unfold setConsulHealthCheckStatus; go_unfold; rewrite Hc; simpl.
    + destruct (PassTTL E _ _ _ _); simpl; by eexists.
    + destruct (FailTTL E _ _ _ _); simpl; by eexists.
    + destruct (FailTTL E _ _ _ _); simpl; by eexists.
Qed.

(** X5.  What [ObjectUpdated] returns is the error of the binding of the
    client, if it failed; otherwise the answer of the agent to the one
    status request sent ([PassTTL] or [FailTTL], by the first [Ready]
    condition), and [nil] when the instance has no [Ready] condition.  In
    every case the handler is left without a client. *)
Theorem ObjectUpdated_returns_status_error
    (E : Env) (t : HealthCheckHandler) (pod : corev1.Pod) :
  let addr := newAddr (ConsulPort t) pod in
  let id := getConsulHealthCheckID pod in
  let h := calls t ++ [CAPIClient addr] in
  ∃ t',
    ObjectUpdated E (Some pod) t =
      Ret (match APIClient E (calls t) addr with
           | Some e => Some e
           | None =>
               match List.find readyCondition (corev1.Conditions pod) with
               | None => None
               | Some y =>
                   if bool_decide (corev1.Status y = corev1.ConditionTrue)
                   then PassTTL E h addr id (corev1.Message y)
                   else FailTTL E h addr id (corev1.Message y)
               end
           end, t') ∧
    Client t' = None.
Proof.
  intros addr id h. unfold ObjectUpdated, assertPod.
  unfold bind at 1. unfold ret at 1. unfold bind at 1. unfold logf at 1, modify at 1.
  unfold bind at 1. rewrite updateConsulClient_eq. cbv zeta.
  simpl calls. simpl ConsulPort. fold addr.
  destruct (APIClient E (calls t) addr) as [e|] eqn:Hapi.
  - go_unfold. eexists. split; [reflexivity|]. done.
  - match goal with |- context [bind (ObjectUpdated_loop E ?i ?c ?e) _ ?s] =>
      destruct (ObjectUpdated_loop_result E i c e s addr) as (t' & Hloop);
        [reflexivity|]; rewrite (bind_Ret _ _ _ _ _ Hloop)
    end.
    simpl calls. fold h id.
    match goal with |- context [Ret (?r, _)] => generalize r end.
    intros r. go_unfold. destruct r; simpl; eexists; (split; [reflexivity|]); done.
Qed.

(** ** Reconciliation: what is sent for one instance *)

Lemma Reconcile_body_calls E pod t :
  ∃ k t',
    (k ≤ 11)%nat ∧
    Reconcile_body E pod t = Ret ((), t') ∧
    calls t' = calls t ++ reconcileCalls E t pod k ∧
    ConsulPort t' = ConsulPort t.
Proof.
  unfold Reconcile_body, reconcileCalls. unfold bind at 1. unfold logf at 1, modify at 1.
  case_bool_decide as Hphase.
  { go_unfold. exists 0%nat. eexists. split; [lia|]. split; [reflexivity|].
    simpl. by rewrite app_nil_r. }
  unfold bind at 1. rewrite updateConsulClient_eq. cbv zeta.
  simpl calls. simpl ConsulPort.
  destruct (APIClient E _ _) as [e|] eqn:Hapi.
  { rewrite bool_decide_eq_true_2 by done. go_unfold. exists 0%nat. eexists.
    split; [lia|]. split; [reflexivity|]. done. }
  rewrite bool_decide_eq_false_2 by (intros ?; done).
  go_unfold. fold (checksFilter pod).
  destruct (ChecksWithFilter E _ _ _) as [e|checks] eqn:Hq.
  { exists 0%nat. eexists. split; [lia|]. split; [reflexivity|].
    simpl. by rewrite <- app_assoc. }
  case_bool_decide as Hsize.
  { exists 0%nat. eexists. split; [lia|]. split; [reflexivity|].
    simpl. by rewrite <- app_assoc. }
  unfold getReadyStatusAndReason. fold readyCondition.
  destruct (List.find readyCondition (corev1.Conditions pod)) as [y|] eqn:Hy.
  2:{ exists 0%nat. eexists. split; [lia|]. split; [reflexivity|].
      simpl. by rewrite <- app_assoc. }
  destruct (checks !! getConsulHealthCheckID pod) as [check|] eqn:Hcheck.
  - exists 0%nat.
    destruct (String.eqb (api.Status check) healthCheckCritical
              && bool_decide (corev1.Status y = corev1.ConditionTrue)) eqn:Hpass.
    + rewrite orb_true_r. unfold setConsulHealthCheckStatus. go_unfold.
      destruct (PassTTL E _ _ _ _); simpl; eexists; (split; [lia|]);
        (split; [reflexivity|]); simpl; by rewrite <- !app_assoc.
    + rewrite orb_false_r.
      destruct (String.eqb (api.Status check) healthCheckPassing
                && bool_decide (corev1.Status y = corev1.ConditionFalse)) eqn:Hfail.
      * unfold setConsulHealthCheckStatus. go_unfold.
        destruct (FailTTL E _ _ _ _); simpl; eexists; (split; [lia|]);
          (split; [reflexivity|]); simpl; by rewrite <- !app_assoc.
      * eexists. split; [lia|]. split; [reflexivity|]. simpl. by rewrite <- !app_assoc.
  - case_bool_decide as Hst;
      match goal with |- context [registerConsulHealthCheck E ?i ?sv ?st ?r ?s] =>
        destruct (registerConsulHealthCheck_registers E i sv st r s (newAddr (ConsulPort t) pod))
          as (k & t1 & Hk & Hr & Hcalls & _ & Hport); [reflexivity|] end;
      exists k; rewrite Hr; simpl in Hcalls, Hport;
      case_bool_decide; eexists; (split; [lia|]); (split; [reflexivity|]); simpl;
      rewrite Hcalls, Hport, <- !app_assoc; done.
Qed.

(** X6.  For an instance that is not running, the sweep of [Reconcile]
    sends no request and leaves the client as it is. *)
Theorem Reconcile_body_not_running (E : Env) (t : HealthCheckHandler) (pod : corev1.Pod) :
  corev1.Phase pod ≠ corev1.PodRunning →
  ∃ t', Reconcile_body E pod t = Ret ((), t') ∧ calls t' = calls t ∧ Client t' = Client t.
Proof.
  intros Hphase. unfold Reconcile_body. unfold bind at 1. unfold logf at 1, modify at 1.
  rewrite bool_decide_eq_true_2 by done. go_unfold. by eexists.
Qed.

Lemma Reconcile_body_not_running_witness :
  corev1.Phase webPending ≠ corev1.PodRunning ∧
  ∃ t', Reconcile_body emptyAgent webPending handler0 = Ret ((), t') ∧
        calls t' = calls handler0 ∧ Client t' = Client handler0.
Proof.
  assert (corev1.Phase webPending ≠ corev1.PodRunning) as Hphase by discriminate.
  split; [exact Hphase|].
  exact (Reconcile_body_not_running emptyAgent handler0 webPending Hphase).
Defined.

(** X7.  For a running instance whose agent holds the check of the instance
    and which has a [Ready] condition, the sweep of [Reconcile] sends,
    after binding the client and querying the checks: [PassTTL] with an
    empty reason when the check is critical and the status of the first
    [Ready] condition is [True]; [FailTTL] with the reason of that
    condition when the check is passing and the status is [False]; and
    nothing in every other case. *)
Theorem Reconcile_body_existing_check
    (E : Env) (t : HealthCheckHandler) (pod : corev1.Pod)
    (checks : gmap string api.AgentCheck) (check : api.AgentCheck) (y : corev1.PodCondition) :
  let addr := newAddr (ConsulPort t) pod in
  let id := getConsulHealthCheckID pod in
  corev1.Phase pod = corev1.PodRunning →
  APIClient E (calls t) addr = None →
  ChecksWithFilter E (calls t ++ [CAPIClient addr]) addr (checksFilter pod) = inr checks →
  checks !! id = Some check →
  List.find readyCondition (corev1.Conditions pod) = Some y →
  ∃ t',
    Reconcile_body E pod t = Ret ((), t') ∧
    calls t' = calls t ++ [CAPIClient addr; CChecksWithFilter addr (checksFilter pod)] ++
      if String.eqb (api.Status check) healthCheckCritical
         && bool_decide (corev1.Status y = corev1.ConditionTrue)
      then [CPassTTL addr id ""]
      else if String.eqb (api.Status check) healthCheckPassing
              && bool_decide (corev1.Status y = corev1.ConditionFalse)
      then [CFailTTL addr id (corev1.Reason y)]
      else [].
Proof.
  intros addr id Hphase Hapi Hq Hcheck Hy.
  destruct (Reconcile_body_calls E pod t) as (k & t' & _ & Hbody & Hcalls & _).
  exists t'. split; [done|]. rewrite Hcalls. f_equal.
  unfold reconcileCalls. fold addr id.
  rewrite bool_decide_eq_false_2 by (intros ?; done).
  rewrite Hapi, Hq, Hy, Hcheck.
  rewrite bool_decide_eq_false_2; [done|].
  intros Hsize. apply map_size_empty_iff in Hsize. by rewrite Hsize in Hcheck.
Qed.

(** The critical check of a ready instance is set to passing. *)
Lemma Reconcile_body_existing_check_witness :
  let check := {| api.CheckID := "web-web-kubernetes-health-check-ttl";
                  api.Status := healthCheckCritical |} in
  let checks : gmap string api.AgentCheck :=
    {[ "web-web-kubernetes-health-check-ttl" := check ]} in
  let y := ready corev1.ConditionTrue "" "" in
  corev1.Phase webReady = corev1.PodRunning ∧
  APIClient criticalCheckAgent (calls handler0) webAgent = None ∧
  ChecksWithFilter criticalCheckAgent (calls handler0 ++ [CAPIClient webAgent]) webAgent
    (checksFilter webReady) = inr checks ∧
  checks !! getConsulHealthCheckID webReady = Some check ∧
  List.find readyCondition (corev1.Conditions webReady) = Some y ∧
  ∃ t',
    Reconcile_body criticalCheckAgent webReady handler0 = Ret ((), t') ∧
    calls t' = calls handler0 ++
      [CAPIClient webAgent; CChecksWithFilter webAgent (checksFilter webReady)] ++
      [CPassTTL webAgent "web-web-kubernetes-health-check-ttl" ""].
Proof.
  intros check checks y.
  assert (checks !! getConsulHealthCheckID webReady = Some check) as Hcheck
    by (vm_compute; reflexivity).
  split; [reflexivity|]. split; [reflexivity|]. split; [reflexivity|].
  split; [exact Hcheck|]. split; [reflexivity|].
  exact (Reconcile_body_existing_check criticalCheckAgent handler0 webReady checks check y
           eq_refl eq_refl eq_refl Hcheck eq_refl).
Defined.

(** X8.  For a running instance with a [Ready] condition whose agent
    answers the query with checks, none of them under the id of the check
    of the instance, the sweep of [Reconcile] polls the services at most
    eleven times and sends one registration: with status critical and the
    reason of the first [Ready] condition when the status of that condition
    is [False], and with status passing and an empty reason otherwise
    ([True] or [Unknown]). *)
Theorem Reconcile_body_missing_check
    (E : Env) (t : HealthCheckHandler) (pod : corev1.Pod)
    (checks : gmap string api.AgentCheck) (y : corev1.PodCondition) :
  let addr := newAddr (ConsulPort t) pod in
  let id := getConsulHealthCheckID pod in
  corev1.Phase pod = corev1.PodRunning →
  APIClient E (calls t) addr = None →
  ChecksWithFilter E (calls t ++ [CAPIClient addr]) addr (checksFilter pod) = inr checks →
  checks ≠ ∅ →
  checks !! id = None →
  List.find readyCondition (corev1.Conditions pod) = Some y →
  ∃ k t',
    (k ≤ 11)%nat ∧
    Reconcile_body E pod t = Ret ((), t') ∧
    calls t' = calls t ++ [CAPIClient addr; CChecksWithFilter addr (checksFilter pod)] ++
      replicate k (CServices addr) ++
      [CCheckRegister addr
         (if bool_decide (corev1.Status y = corev1.ConditionFalse)
          then registration id (getConsulServiceID pod) healthCheckCritical (corev1.Reason y)
          else registration id (getConsulServiceID pod) healthCheckPassing "")].
Proof.
  intros addr id Hphase Hapi Hq Hne Hcheck Hy.
  destruct (Reconcile_body_calls E pod t) as (k & t' & Hk & Hbody & Hcalls & _).
  exists k, t'. split; [done|]. split; [done|]. rewrite Hcalls. f_equal.
  unfold reconcileCalls. fold addr id.
  rewrite bool_decide_eq_false_2 by (intros ?; done).
  rewrite Hapi, Hq, Hy, Hcheck.
  rewrite bool_decide_eq_false_2; [done|].
  intros Hsize. by apply map_size_empty_iff in Hsize.
Qed.

(** The check of an instance that is not ready is registered as critical. *)
Lemma Reconcile_body_missing_check_witness :
  let checks : gmap string api.AgentCheck :=
    {[ "web-check" := {| api.CheckID := "web-check"; api.Status := healthCheckPassing |} ]} in
  let y := ready corev1.ConditionFalse "ContainersNotReady"
             "containers with unready status: [web]" in
  corev1.Phase webNotReady = corev1.PodRunning ∧
  APIClient foreignCheckAgent (calls handler0) webAgent = None ∧
  ChecksWithFilter foreignCheckAgent (calls handler0 ++ [CAPIClient webAgent]) webAgent
    (checksFilter webNotReady) = inr checks ∧
  checks ≠ ∅ ∧
  checks !! getConsulHealthCheckID webNotReady = None ∧
  List.find readyCondition (corev1.Conditions webNotReady) = Some y ∧
  ∃ k t',
    (k ≤ 11)%nat ∧
    Reconcile_body foreignCheckAgent webNotReady handler0 = Ret ((), t') ∧
    calls t' = calls handler0 ++
      [CAPIClient webAgent; CChecksWithFilter webAgent (checksFilter webNotReady)] ++
      replicate k (CServices webAgent) ++
      [CCheckRegister webAgent
         (registration "web-web-kubernetes-health-check-ttl" "web-web" healthCheckCritical
            "ContainersNotReady")].
Proof.
  intros checks y.
  assert (checks ≠ ∅) as Hne.
  { intros Hempty. assert (checks !! "web-check" = None) as Hnone by (by rewrite Hempty).
    vm_compute in Hnone. discriminate Hnone. }
  assert (checks !! getConsulHealthCheckID webNotReady = None) as Hcheck
    by (vm_compute; reflexivity).
  split; [reflexivity|]. split; [reflexivity|]. split; [reflexivity|].
  split; [exact Hne|]. split; [exact Hcheck|]. split; [reflexivity|].
  exact (Reconcile_body_missing_check foreignCheckAgent handler0 webNotReady checks y
           eq_refl eq_refl eq_refl Hne Hcheck eq_refl).
Defined.

(** ** Reconciliation: the whole sweep *)

Lemma mutations_replicate_Services k addr : mutations (replicate k (CServices addr)) = [].
Proof. induction k; simpl; auto. Qed.

Lemma deregistrations_replicate_Services k addr :
  deregistrations (replicate k (CServices addr)) = [].
Proof. induction k; simpl; auto. Qed.

Lemma deregistrations_app cs1 cs2 :
  deregistrations (cs1 ++ cs2) = deregistrations cs1 ++ deregistrations cs2.
Proof. apply List.filter_app. Qed.

Lemma reconcileCalls_mutations E t pod k :
  (length (mutations (reconcileCalls E t pod k)) ≤ 1)%nat ∧
  deregistrations (reconcileCalls E t pod k) = [].
Proof.
  unfold reconcileCalls.
  repeat first
    [ case_bool_decide
    | match goal with
      | |- context [match ?x with _ => _ end] => destruct x eqn:?
      end ];
    rewrite ?mutations_app, ?deregistrations_app, ?mutations_replicate_Services,
      ?deregistrations_replicate_Services; simpl; auto.
Qed.

Lemma forRange_Reconcile_calls E pods : ∀ t,
  ∃ t' new,
    forRange pods (Reconcile_body E) t = Ret ((), t') ∧
    calls t' = calls t ++ new ∧
    (length (mutations new) ≤ length pods)%nat ∧
    deregistrations new = [].
Proof.
  induction pods as [|pod rest IH]; intros t; simpl.
  - exists t, []. by rewrite app_nil_r.
  - destruct (Reconcile_body_calls E pod t) as (k & t1 & _ & Hbody & Hcalls & _).
    rewrite (bind_Ret _ _ _ _ _ Hbody).
    destruct (IH t1) as (t' & new & Hrest & Hcalls' & Hlen & Hder).
    destruct (reconcileCalls_mutations E t pod k) as [Hm Hd].
    exists t', (reconcileCalls E t pod k ++ new). split; [done|].
    rewrite Hcalls', Hcalls, <- app_assoc. split; [done|].
    rewrite mutations_app, deregistrations_app, length_app, Hd, Hder. split; [lia|done].
Qed.

(** X9.  A run of [Reconcile] first lists the instances, then sends at most
    one request that changes the registry of an agent per listed instance
    (a registration or a status), and never a deregistration; when the
    listing fails it sends nothing more. *)
Theorem Reconcile_one_mutation_per_instance (E : Env) (t : HealthCheckHandler) :
  ∃ r t' new,
    Reconcile E t = Ret (r, t') ∧
    calls t' = calls t ++ [CPodsList NamespaceAll labelSelector] ++ new ∧
    deregistrations new = [] ∧
    match PodsList E (calls t) NamespaceAll labelSelector with
    | inl _ => new = []
    | inr podList => (length (mutations new) ≤ length podList)%nat
    end.
Proof.
  unfold Reconcile. unfold bind at 1. unfold request at 1.
  destruct (PodsList E (calls t) NamespaceAll labelSelector) as [e|podList].
  - go_unfold. eexists _, _, []. split; [reflexivity|]. done.
  - unfold bind at 1.
    match goal with |- context [forRange podList _ ?s] =>
      destruct (forRange_Reconcile_calls E podList s) as (t' & new & -> & Hcalls & Hlen & Hder)
    end.
    go_unfold. exists None, t', new. split; [done|]. simpl in Hcalls.
    rewrite Hcalls, <- app_assoc. done.
Qed.

(** ** Queue keys *)

Lemma string_app_cons (c : ascii) (s1 s2 : string) :
  String c s1 +:+ s2 = String c (s1 +:+ s2).
Proof. reflexivity. Qed.

Lemma string_app_nil_r (s : string) : s +:+ "" = s.
Proof. induction s as [|c s IH]; [done|]. by rewrite string_app_cons, IH. Qed.

Lemma string_app_assoc (s1 s2 s3 : string) : (s1 +:+ s2) +:+ s3 = s1 +:+ s2 +:+ s3.
Proof. induction s1 as [|c s1 IH]; [done|]. by rewrite !string_app_cons, IH. Qed.

(** Joining the pieces [splitFrom] returns gives back the piece being read
    followed by the string. *)
Lemma Join_splitFrom sep s : ∀ cur,
  GoStrings.Join (GoStrings.splitFrom sep cur s) (String sep "") = cur +:+ s.
Proof.
  induction s as [|c s IH]; intros cur; simpl.
  - by rewrite string_app_nil_r.
  - destruct (Ascii.eqb_spec c sep) as [->|Hne].
    + destruct (GoStrings.splitFrom sep "" s) as [|x l] eqn:Hs;
        [by apply splitFrom_nonempty in Hs|].
      change (GoStrings.Join (cur :: x :: l) (String sep ""))
        with (cur +:+ String sep "" +:+ GoStrings.Join (x :: l) (String sep "")).
      rewrite <- Hs, IH. reflexivity.
    + rewrite IH. by rewrite string_app_assoc.
Qed.

(** The key [processNextItem] looks up for [ADD/key] is [key], on the create
    path. *)
Lemma keyRaw_ADD (key : string) :
  keyRaw ("ADD/" +:+ key) = key ∧ keyCreate ("ADD/" +:+ key) = true.
Proof.
  unfold keyRaw, keyCreate, GoStrings.Split. rewrite !string_app_cons. simpl.
  change ("" +:+ key) with key. split; [|done].
  apply (Join_splitFrom "/" key "").
Qed.

(** X10.  Joining with [/] the pieces of a key split at [/] gives the key
    back; hence for the keys the event filter enqueues, [ADD/key] and
    [UPDATE/key], the worker loop looks up [key], whatever [/] it holds,
    on the create path for the first and on the update path for the
    second. *)
Theorem key_round_trip (key : string) :
  GoStrings.Join (GoStrings.Split key "/") "/" = key ∧
  keyRaw ("ADD/" +:+ key) = key ∧ keyCreate ("ADD/" +:+ key) = true ∧
  keyRaw ("UPDATE/" +:+ key) = key ∧ keyCreate ("UPDATE/" +:+ key) = false.
Proof.
  assert (GoStrings.Join (GoStrings.Split key "/") "/" = key) as Hjoin
    by apply (Join_splitFrom "/" key "").
  split; [done|]. unfold keyRaw, keyCreate, GoStrings.Split.
  rewrite !string_app_cons. simpl.
  change ("" +:+ key) with key. fold (GoStrings.Split key "/"). by rewrite Hjoin.
Qed.

(** ** The event filter *)

(** X11.  The status the event filter compares is that of the last
    condition of type [Ready] of the instance, and [True] when it has none
    (the handler reads the first one). *)
Theorem podStatus_last_Ready (pod : corev1.Pod) :
  podStatus pod =
  match List.find readyCondition (rev (corev1.Conditions pod)) with
  | Some y => corev1.Status y
  | None => corev1.ConditionTrue
  end.
Proof.
  unfold podStatus. induction (corev1.Conditions pod) as [|y conds IH] using rev_ind; [done|].
  rewrite fold_left_app, rev_unit. simpl. fold (readyCondition y).
  destruct (readyCondition y); [done | exact IH].
Qed.

Section MoreEventFilter.

Context {T : Type}.

(** X12.  [UpdateFunc] always returns, leaves the handler alone and
    enqueues at most one key, which is [ADD/] or [UPDATE/] followed by the
    key of the new instance; it enqueues nothing when the two instances are
    equal, and nothing when the new instance is not running. *)
Theorem UpdateFunc_enqueues_at_most_one_key (c : Controller T) (oldObj newObj : corev1.Pod) :
  ∃ key c' evs,
    MetaNamespaceKeyFunc newObj = inr key ∧
    UpdateFunc oldObj newObj c = Ret ((), c') ∧
    events c' = events c ++ evs ∧
    Handle c' = Handle c ∧
    (evs = [] ∨ evs = [EAdd ("ADD/" +:+ key)] ∨ evs = [EAdd ("UPDATE/" +:+ key)]) ∧
    (oldObj = newObj → evs = []) ∧
    (corev1.Phase newObj ≠ corev1.PodRunning → evs = []).
Proof.
  assert (∃ key, MetaNamespaceKeyFunc newObj = inr key) as [key Hkey].
  { unfold MetaNamespaceKeyFunc. case_bool_decide; eauto. }
  exists key. unfold UpdateFunc. rewrite Hkey.
  case_bool_decide as Heq.
  { go_unfold. eexists _, []. rewrite app_nil_r. repeat split; auto. }
  unfold bind at 1. unfold clogf at 1, modify at 1.
  destruct (decide (corev1.Phase newObj = corev1.PodRunning)) as [Hrun|Hrun].
  - rewrite (bool_decide_eq_true_2 _ Hrun).
    destruct (bool_decide (corev1.Phase oldObj = corev1.PodPending)); simpl.
    + go_unfold. eexists _, [_]. repeat split; auto; done.
    + case_bool_decide; go_unfold.
      * eexists _, [_]. repeat split; auto; done.
      * eexists _, []. rewrite app_nil_r. repeat split; auto; done.
  - rewrite (bool_decide_eq_false_2 _ Hrun), andb_false_r.
    go_unfold. eexists _, []. rewrite app_nil_r. repeat split; auto.
Qed.

End MoreEventFilter.

(** ** The worker loop *)

Section MoreWorkerLoop.

Context {T : Type} `{Handler T}.

Lemma dispatch_run_events (create : bool) item (c : Controller T) :
  match handlerDispatch create item (Handle c) with
  | Ret (err, h) =>
      ∃ c',
        dispatch create item c = Ret (err, c') ∧
        events c' = events c ++ dispatchEvents create item (Handle c) ∧
        Queue c' = Queue c ∧ MaxRetries c' = MaxRetries c ∧ Handle c' = h
  | Panic msg => dispatch create item c = Panic msg
  | Blocked => dispatch create item c = Blocked
  | OutOfFuel => dispatch create item c = OutOfFuel
  end.
Proof.
  unfold handlerDispatch, dispatch, dispatchEvents. destruct create.
  - unfold bind at 1. go_unfold.
    destruct (handlerObjectCreated item (Handle c)) as [[[e|] h1]| | |]; simpl; try done.
    + eexists. split; [reflexivity|]. done.
    + destruct (handlerObjectUpdated item h1) as [[err h2]| | |]; simpl; try done.
      eexists. split; [reflexivity|]. simpl. by rewrite <- app_assoc.
  - go_unfold.
    destruct (handlerObjectUpdated item (Handle c)) as [[err h2]| | |]; simpl; try done.
    eexists. split; [reflexivity|]. done.
Qed.

(** One round of the worker loop, with the calls of the handler spelled
    out. *)
Lemma processNextItem_round (c : Controller T) key q item (exists_ : bool) e0 :
  workqueue.Get (Queue c) = Some ((key, false), q) →
  GetByKey (Informer c) (keyRaw key) = (item, exists_, e0) →
  let levs := lookupEvents key q (MaxRetries c) e0 in
  let q2 := lookupQueue key q (MaxRetries c) e0 in
  if exists_ then
    match handlerDispatch (keyCreate key) item (Handle c) with
    | Ret (err, h) =>
        ∃ c',
          processNextItem c = Ret (true, c') ∧
          Handle c' = h ∧
          events c' = events c ++ [EGet key false] ++ levs ++
            dispatchEvents (keyCreate key) item (Handle c) ++
            match err with
            | None => [EForget key; EDone key]
            | Some _ =>
                if workqueue.NumRequeues key q2 <? MaxRetries c
                then [EAddRateLimited key] else []
            end
    | Panic msg => processNextItem c = Panic msg
    | Blocked => processNextItem c = Blocked
    | OutOfFuel => processNextItem c = OutOfFuel
    end
  else
    ∃ c',
      processNextItem c = Ret (true, c') ∧
      Handle c' = Handle c ∧
      events c' = events c ++ [EGet key false] ++ levs ++
        match e0 with None => [EDone key] | Some _ => [] end.
Proof.
  intros Hget Hlookup levs q2. subst levs q2.
  unfold keyRaw in Hlookup. unfold keyCreate.
  remember (processNextItem c) as out eqn:Hout.
  unfold processNextItem in Hout.
  unfold bind at 1 in Hout. unfold clogf at 1, modify at 1 in Hout.
  unfold bind at 1 in Hout. unfold Queue_Get at 1 in Hout. ctrl_simpl in Hout.
  rewrite Hget in Hout. ctrl_simpl in Hout.
  destruct (GoStrings.Split key "/") as [|k0 rest] eqn:Hsplit;
    [by apply Split_nonempty in Hsplit|].
  simpl in Hlookup. change (head (k0 :: rest)) with (Some k0).
  unfold bind at 1 in Hout. unfold get at 1 in Hout. ctrl_simpl in Hout.
  rewrite Hlookup in Hout.
  unfold bind at 1 in Hout.
  match type of Hout with context [lookupFailed key e0 ?c1] =>
    destruct (lookupFailed_run key e0 c1) as (c2 & Hl & Hevs2 & Hq2 & Hh2 & Hm2) end.
  rewrite Hl in Hout. ctrl_simpl in Hevs2. ctrl_simpl in Hq2. ctrl_simpl in Hh2.
  ctrl_simpl in Hm2.
  assert ((if bool_decide (k0 ≠ "ADD") then false else true)
          = bool_decide (Some k0 = Some "ADD")) as Hcreate.
  { do 2 case_bool_decide; congruence. }
  rewrite Hcreate in Hout. clear Hcreate.
  set (create := bool_decide (Some k0 = Some "ADD")) in *.
  destruct exists_.
  - unfold bind at 1 in Hout. unfold bind at 1 in Hout.
    pose proof (dispatch_run_events create item c2) as Hd. rewrite Hh2 in Hd.
    destruct (handlerDispatch create item (Handle c)) as [[err h]| | |];
      [|rewrite Hd in Hout; exact Hout ..].
    destruct Hd as (c3 & Hd & Hevs3 & Hq3 & Hm3 & Hh3).
    rewrite Hd in Hout. clear Hd Hl.
    destruct err as [e|]; autounfold with go in Hout; simpl in Hout.
    + rewrite Hq3, Hq2, Hm3, Hm2 in Hout.
      destruct (_ <? _); subst out; eexists;
        (split; [reflexivity|]); simpl; rewrite ?Hevs3, ?Hevs2, ?Hq3, ?Hq2, <- ?app_assoc;
        repeat split; try done; rewrite ?app_nil_r; done.
    + subst out. eexists.
      (split; [reflexivity|]); simpl; rewrite ?Hevs3, ?Hevs2, ?Hq3, ?Hq2, <- ?app_assoc;
        repeat split; done.
  - autounfold with go in Hout; simpl in Hout.
    destruct e0 as [e|]; simpl in Hout; subst out; eexists;
      (split; [reflexivity|]); simpl; rewrite ?Hevs2, ?Hq2, <- ?app_assoc;
      unfold lookupEvents; simpl; rewrite ?app_nil_r; done.
Qed.

(** X13.  On an empty queue, [processNextItem] returns [false] without
    calling the handler when the queue is shut down, and [runWorker] ends;
    when the queue is not shut down both wait for a key. *)
Theorem processNextItem_empty_queue (c : Controller T) :
  workqueue.queue (Queue c) = [] →
  if workqueue.shuttingDown (Queue c) then
    ∃ c',
      processNextItem c = Ret (false, c') ∧
      events c' = events c ++ [EGet "" true] ∧
      Handle c' = Handle c ∧ Queue c' = Queue c ∧
      ∀ fuel, ∃ c'',
        runWorker (Datatypes.S fuel) c = Ret ((), c'') ∧
        events c'' = events c ++ [EGet "" true] ∧ Handle c'' = Handle c
  else
    processNextItem c = Blocked ∧ ∀ fuel, runWorker (Datatypes.S fuel) c = Blocked.
Proof.
  intros Hq.
  assert (workqueue.Get (Queue c) =
          if workqueue.shuttingDown (Queue c) then Some (("", true), Queue c) else None) as Hget.
  { unfold workqueue.Get. by rewrite Hq. }
  destruct (workqueue.shuttingDown (Queue c)).
  - assert (processNextItem c =
            Ret (false, addEvent (EGet "" true)
                          (setQueue (Queue c)
                             (addCtrlLog (LDebug, "Controller.processNextItem: start") c))))
      as Hp.
    { unfold processNextItem. unfold bind at 1. unfold clogf at 1, modify at 1.
      unfold bind at 1. unfold Queue_Get at 1. ctrl_simpl. by rewrite Hget. }
    eexists. split; [exact Hp|]. repeat split; try done.
    intros fuel. unfold runWorker. unfold bind at 1. unfold clogf at 1, modify at 1.
    unfold bind at 1. simpl runWorker_loop. unfold bind at 1.
    assert (∀ l, processNextItem (addCtrlLog l c) =
                 Ret (false, addEvent (EGet "" true)
                               (setQueue (Queue c)
                                  (addCtrlLog (LDebug, "Controller.processNextItem: start")
                                     (addCtrlLog l c))))) as Hp'.
    { intros l. unfold processNextItem. unfold bind at 1. unfold clogf at 1, modify at 1.
      unfold bind at 1. unfold Queue_Get at 1. ctrl_simpl. by rewrite Hget. }
    rewrite Hp'. go_unfold. eexists. split; [reflexivity|]. done.
  - assert (∀ c0 : Controller T, Queue c0 = Queue c → processNextItem c0 = Blocked) as Hb.
    { intros c0 Hc0. unfold processNextItem. unfold bind at 1. unfold clogf at 1, modify at 1.
      unfold bind at 1. unfold Queue_Get at 1. ctrl_simpl. by rewrite Hc0, Hget. }
    split; [by apply Hb|].
    intros fuel. unfold runWorker. unfold bind at 1. unfold clogf at 1, modify at 1.
    unfold bind at 1. simpl runWorker_loop. unfold bind at 1.
    by rewrite Hb.
Qed.

(** X14.  When the lookup of the dequeued key fails and the cache reports
    no instance, the round ends with [true] without calling the handler or
    [Done]: the key is added again, rate limited, while its requeues are
    fewer than [MaxRetries]; otherwise it is forgotten and the error is
    reported, once. *)
Theorem processNextItem_lookup_failure (c : Controller T) key q item e :
  workqueue.Get (Queue c) = Some ((key, false), q) →
  GetByKey (Informer c) (keyRaw key) = (item, false, Some e) →
  ∃ c',
    processNextItem c = Ret (true, c') ∧
    Handle c' = Handle c ∧
    events c' = events c ++ [EGet key false] ++
      if workqueue.NumRequeues key q <? MaxRetries c
      then [EAddRateLimited key]
      else [EForget key; EHandleError e].
Proof.
  intros Hget Hlookup.
  pose proof (processNextItem_round c key q item false (Some e) Hget Hlookup) as Hrun.
  cbv zeta in Hrun. destruct Hrun as (c' & Hp & Hh & Hevs).
  exists c'. split; [done|]. split; [done|].
  rewrite Hevs. unfold lookupEvents. by rewrite app_nil_r.
Qed.

(** X15.  In the round of a key [ADD/key] whose instance is in the cache,
    when [ObjectCreated] returns an error [ObjectUpdated] is not called,
    and [Done] is not called. *)
Theorem processNextItem_failed_create_is_not_updated (c : Controller T) key q item e0 e h :
  workqueue.Get (Queue c) = Some (("ADD/" +:+ key, false), q) →
  GetByKey (Informer c) key = (item, true, e0) →
  handlerObjectCreated item (Handle c) = Ret (Some e, h) →
  ∃ c' evs,
    processNextItem c = Ret (true, c') ∧
    events c' = events c ++ evs ∧
    dispatches evs = [EObjectCreated item] ∧
    doneCalls ("ADD/" +:+ key) evs = 0%nat ∧
    Handle c' = h.
Proof.
  intros Hget Hlookup Hcreate.
  destruct (keyRaw_ADD key) as (Hraw & Hc).
  rewrite <- Hraw in Hlookup.
  pose proof (processNextItem_round c _ q item true e0 Hget Hlookup) as Hrun.
  cbv zeta in Hrun. rewrite Hc in Hrun.
  unfold handlerDispatch, dispatchEvents in Hrun. unfold bind in Hrun.
  rewrite Hcreate in Hrun. unfold ret in Hrun.
  destruct Hrun as (c' & Hp & Hh & Hevs).
  eexists c', _. split; [done|]. split; [exact Hevs|].
  rewrite !dispatches_app, !doneCalls_app.
  destruct (lookupEvents_quiet ("ADD/" +:+ key) q (MaxRetries c) e0) as (-> & ->).
  split; [|split; [|done]].
  - simpl. by destruct (_ <? _).
  - unfold doneCalls. simpl. rewrite ?bool_decide_eq_false_2 by discriminate. simpl.
    destruct (_ <? _); simpl; rewrite ?bool_decide_eq_false_2 by discriminate; done.
Qed.

(** X16.  In the round of a key [ADD/key] whose instance is in the cache,
    when [ObjectCreated] returns [nil], [ObjectUpdated] is called next, on
    the same instance and the handler state [ObjectCreated] left; its
    state is that of the handler after the round. *)
Theorem processNextItem_create_then_update (c : Controller T) key q item e0 h err h' :
  workqueue.Get (Queue c) = Some (("ADD/" +:+ key, false), q) →
  GetByKey (Informer c) key = (item, true, e0) →
  handlerObjectCreated item (Handle c) = Ret (None, h) →
  handlerObjectUpdated item h = Ret (err, h') →
  ∃ c' evs,
    processNextItem c = Ret (true, c') ∧
    events c' = events c ++ evs ∧
    dispatches evs = [EObjectCreated item; EObjectUpdated item] ∧
    Handle c' = h'.
Proof.
  intros Hget Hlookup Hcreate Hupdate.
  destruct (keyRaw_ADD key) as (Hraw & Hc).
  rewrite <- Hraw in Hlookup.
  pose proof (processNextItem_round c _ q item true e0 Hget Hlookup) as Hrun.
  cbv zeta in Hrun. rewrite Hc in Hrun.
  unfold handlerDispatch, dispatchEvents in Hrun. unfold bind in Hrun.
  rewrite Hcreate, Hupdate in Hrun.
  destruct Hrun as (c' & Hp & Hh & Hevs).
  eexists c', _. split; [done|]. split; [exact Hevs|].
  rewrite !dispatches_app.
  destruct (lookupEvents_quiet ("ADD/" +:+ key) q (MaxRetries c) e0) as (_ & ->).
  split; [|done].
  simpl. destruct err; [destruct (_ <? _)|]; done.
Qed.

End MoreWorkerLoop.

(** A stopped controller: the round returns [false] and the worker ends. *)
Lemma processNextItem_empty_queue_witness :
  workqueue.queue (Queue stoppedController) = [] ∧
  ∃ c',
    processNextItemIn emptyAgent stoppedController = Ret (false, c') ∧
    events c' = events stoppedController ++ [EGet "" true] ∧
    Handle c' = Handle stoppedController ∧ Queue c' = Queue stoppedController ∧
    ∀ fuel, ∃ c'',
      runWorkerIn emptyAgent (Datatypes.S fuel) stoppedController = Ret ((), c'') ∧
      events c'' = events stoppedController ++ [EGet "" true] ∧
      Handle c'' = Handle stoppedController.
Proof.
  split; [reflexivity|].
  exact (@processNextItem_empty_queue _ (HealthCheckHandler_Handler emptyAgent)
           stoppedController eq_refl).
Defined.

(** An idle controller waits for a key. *)
Example idle_controller_waits : processNextItemIn emptyAgent idleController = Blocked.
Proof. vm_compute. reflexivity. Qed.

(** A failed lookup with no retry allowed is forgotten and reported. *)
Lemma processNextItem_lookup_failure_witness :
  let c := failingLookupController 0 "UPDATE/default/web" in
  workqueue.Get (Queue c) = Some (("UPDATE/default/web", false), afterGet (Queue c)) ∧
  GetByKey (Informer c) (keyRaw "UPDATE/default/web") = (None, false, Some connectionRefused) ∧
  ∃ c',
    processNextItemIn emptyAgent c = Ret (true, c') ∧
    Handle c' = Handle c ∧
    events c' = events c ++ [EGet "UPDATE/default/web" false] ++
      if workqueue.NumRequeues "UPDATE/default/web" (afterGet (Queue c)) <? MaxRetries c
      then [EAddRateLimited "UPDATE/default/web"]
      else [EForget "UPDATE/default/web"; EHandleError connectionRefused].
Proof.
  intros c.
  assert (workqueue.Get (Queue c) = Some (("UPDATE/default/web", false), afterGet (Queue c)))
    as Hget by (vm_compute; reflexivity).
  split; [exact Hget|]. split; [reflexivity|].
  exact (@processNextItem_lookup_failure _ (HealthCheckHandler_Handler emptyAgent)
           c "UPDATE/default/web" (afterGet (Queue c)) None connectionRefused Hget eq_refl).
Defined.

(** With retries left, the key of a failed lookup is added again. *)
Example lookup_failure_is_retried :
  eventsOf (processNextItemIn emptyAgent (failingLookupController 5 "UPDATE/default/web")) =
  Some (true, [EGet "UPDATE/default/web" false; EAddRateLimited "UPDATE/default/web"]).
Proof. vm_compute. reflexivity. Qed.

(** The agent cannot be reached: the creation fails and no update follows. *)
Lemma processNextItem_failed_create_witness :
  let c := controllerWith 5 "ADD/default/web" webReady in
  let h := stateAfter (ObjectCreated unreachableAgent (Some webReady) handler0) in
  workqueue.Get (Queue c) = Some (("ADD/" +:+ "default/web", false), afterGet (Queue c)) ∧
  GetByKey (Informer c) "default/web" = (Some webReady, true, None) ∧
  ObjectCreated unreachableAgent (Some webReady) (Handle c) = Ret (Some connectionRefused, h) ∧
  ∃ c' evs,
    processNextItemIn unreachableAgent c = Ret (true, c') ∧
    events c' = events c ++ evs ∧
    dispatches evs = [EObjectCreated (Some webReady)] ∧
    doneCalls ("ADD/" +:+ "default/web") evs = 0%nat ∧
    Handle c' = h.
Proof.
  intros c h.
  assert (workqueue.Get (Queue c) = Some (("ADD/" +:+ "default/web", false), afterGet (Queue c)))
    as Hget by (vm_compute; reflexivity).
  assert (GetByKey (Informer c) "default/web" = (Some webReady, true, None))
    as Hlookup by (vm_compute; reflexivity).
  assert (ObjectCreated unreachableAgent (Some webReady) (Handle c)
          = Ret (Some connectionRefused, h)) as Hcreate by (vm_compute; reflexivity).
  split; [exact Hget|]. split; [exact Hlookup|]. split; [exact Hcreate|].
  exact (@processNextItem_failed_create_is_not_updated _
           (HealthCheckHandler_Handler unreachableAgent)
           c "default/web" (afterGet (Queue c)) (Some webReady) None connectionRefused h
           Hget Hlookup Hcreate).
Defined.

(** The creation succeeds and the update follows from the state it left. *)
Lemma processNextItem_create_then_update_witness :
  let c := controllerWith 5 "ADD/default/web" webReady in
  let h := stateAfter (ObjectCreated emptyAgent (Some webReady) handler0) in
  let h' := stateAfter (ObjectUpdated emptyAgent (Some webReady) h) in
  workqueue.Get (Queue c) = Some (("ADD/" +:+ "default/web", false), afterGet (Queue c)) ∧
  GetByKey (Informer c) "default/web" = (Some webReady, true, None) ∧
  ObjectCreated emptyAgent (Some webReady) (Handle c) = Ret (None, h) ∧
  ObjectUpdated emptyAgent (Some webReady) h = Ret (None, h') ∧
  ∃ c' evs,
    processNextItemIn emptyAgent c = Ret (true, c') ∧
    events c' = events c ++ evs ∧
    dispatches evs = [EObjectCreated (Some webReady); EObjectUpdated (Some webReady)] ∧
    Handle c' = h'.
Proof.
  intros c h h'.
  assert (workqueue.Get (Queue c) = Some (("ADD/" +:+ "default/web", false), afterGet (Queue c)))
    as Hget by (vm_compute; reflexivity).
  assert (GetByKey (Informer c) "default/web" = (Some webReady, true, None))
    as Hlookup by (vm_compute; reflexivity).
  assert (ObjectCreated emptyAgent (Some webReady) (Handle c) = Ret (None, h))
    as Hcreate by (vm_compute; reflexivity).
  assert (ObjectUpdated emptyAgent (Some webReady) h = Ret (None, h'))
    as Hupdate by (vm_compute; reflexivity).
  split; [exact Hget|]. split; [exact Hlookup|]. split; [exact Hcreate|].
  split; [exact Hupdate|].
  exact (@processNextItem_create_then_update _ (HealthCheckHandler_Handler emptyAgent)
           c "default/web" (afterGet (Queue c)) (Some webReady) None h None h'
           Hget Hlookup Hcreate Hupdate).
Defined.

(** The requests of that round: bind, poll eleven times, register, then
    bind again and set the check to passing. *)
Example create_then_update_requests :
  calls (stateAfter (ObjectUpdated emptyAgent (Some webReady)
                       (stateAfter (ObjectCreated emptyAgent (Some webReady) handler0)))) =
  [CAPIClient webAgent] ++ replicate 11 (CServices webAgent) ++
  [CCheckRegister webAgent
     (registration "web-web-kubernetes-health-check-ttl" "web-web" healthCheckPassing "");
   CAPIClient webAgent;
   CPassTTL webAgent "web-web-kubernetes-health-check-ttl" ""].
Proof. vm_compute. reflexivity. Qed.
